(** * Video Generator API: the HTTP wrapper of [app.py]

    A shallow embedding of the wrapper's helpers ([_load_default_api_key],
    [_resolve_api_key], [_collect_referenced_characters],
    [_build_character_ref_map]) and of its three generation routes, with
    the properties its specification states about them.

    Conventions.
    - Python values read from [secret.json] are [json] values; [None] is
      [JNull].
    - A [Dict[str, str]] is an insertion-ordered association list with
      distinct keys ([pydict]); [d[k] = v] is [dict_setitem].
    - A function that may raise returns a [result]; the route handlers
      additionally record every call they make to a delegate of the
      [generate] module.
    - [pathlib] and the [generate] module are not part of [app.py]: they are
      interfaces ([Pathlib], [Generate]) the development is parametric in.
    - Requests are the records pydantic has already validated;
      [model_dump()] of a record is the record.
    - [Path.exists()], [read_text()] and [json.loads] may themselves raise
      (a name too long for the file system, a file that cannot be read or
      decoded, an integer literal beyond the digit limit): such an
      exception is a [library_error], which no handler of the wrapper
      catches. *)

From Stdlib Require Import ZArith String.
From stdpp Require Import base gmap strings list.

Local Set Warnings "-register-all,-clear-no-such-hyp".
Local Open Scope string_scope.
Local Open Scope Z_scope.
Local Open Scope list_scope.

(** ** Python values *)

(** A float is observed by the wrapper only through its truth value; it is
    either a zero or a non-zero float, the latter identified by its [repr]. *)
Inductive pyfloat :=
| FZero (negative : bool)
| FNonZero (repr : string).

(** What [json.loads] produces. The [fields] of an object are the items of
    the resulting [dict], in insertion order, their keys distinct. *)
Inductive json :=
| JNull
| JBool (b : bool)
| JInt (n : Z)
| JFloat (f : pyfloat)
| JStr (s : string)
| JArr (items : list json)
| JObj (fields : list (string * json)).

Definition str_truthy (s : string) : bool :=
  match s with
  | EmptyString => false
  | String _ _ => true
  end.

Definition list_truthy {A} (l : list A) : bool :=
  match l with
  | [] => false
  | _ :: _ => true
  end.

(** [bool(v)] *)
Definition truthy (v : json) : bool :=
  match v with
  | JNull => false
  | JBool b => b
  | JInt n => negb (n =? 0)
  | JFloat (FZero _) => false
  | JFloat (FNonZero _) => true
  | JStr s => str_truthy s
  | JArr items => list_truthy items
  | JObj fields => list_truthy fields
  end.

(** [type(v).__name__] *)
Definition type_name (v : json) : string :=
  match v with
  | JNull => "NoneType"
  | JBool _ => "bool"
  | JInt _ => "int"
  | JFloat _ => "float"
  | JStr _ => "str"
  | JArr _ => "list"
  | JObj _ => "dict"
  end.

(** An [Optional[str]] request field as a Python value. *)
Definition of_optional (o : option string) : json :=
  match o with
  | None => JNull
  | Some s => JStr s
  end.

(** [a or b] on two [Optional[str]] fields. *)
Definition or_optional (a b : option string) : option string :=
  if truthy (of_optional a) then a else b.

(** ** Dictionaries *)

Definition pydict := list (string * string).

Definition dict_keys {V} (d : list (string * V)) : list string := d.*1.

(** [k in d] *)
Definition dict_contains {V} (d : list (string * V)) (k : string) : bool :=
  bool_decide (k ∈ dict_keys d).

(** [d.get(k)] *)
Fixpoint dict_get (d : list (string * json)) (k : string) : json :=
  match d with
  | [] => JNull
  | (k', v) :: d' => if decide (k' = k) then v else dict_get d' k
  end.

(** [d[k] = v]: an existing key keeps its position, a new one goes last. *)
Fixpoint dict_setitem (d : pydict) (k v : string) : pydict :=
  match d with
  | [] => [(k, v)]
  | (k', v') :: d' =>
      if decide (k' = k) then (k, v) :: d' else (k', v') :: dict_setitem d' k v
  end.

(** [sep.join(l)] *)
Fixpoint join (sep : string) (l : list string) : string :=
  match l with
  | [] => EmptyString
  | [x] => x
  | x :: rest => x +:+ sep +:+ join sep rest
  end.

(** ** Request and response models *)

Record CharacterDesign := {
  character_name : string;
  image_generation_prompt : string
}.

Record Scene := {
  scene_number : Z;
  scene_type : string;
  duration_seconds : Z;
  start_frame_prompt : string;
  end_frame_prompt : string;
  video_prompt : string;
  reference_images : list string
}.

(** ** Exceptions and results *)

(** An exception raised inside [pathlib] or [json] that is not a
    [JSONDecodeError]: an [OSError] of [Path.exists()] or [read_text()], a
    [UnicodeDecodeError], the plain [ValueError] or [RecursionError] of
    [json.loads]. [class_name] is the name of its class, [msg] its [str]. *)
Inductive library_error :=
| LibraryError (class_name msg : string).

(** What the wrapper raises: the [HTTPException]s it builds, the
    [AttributeError] of a method call on a value that lacks the method, and
    the library errors that pass through it uncaught. *)
Inductive exn :=
| HTTPException (status_code : Z) (detail : string)
| AttributeError (msg : string)
| Uncaught (e : library_error).

(** A failure of a delegate, classified as the handlers' [except] clauses
    do: [ValueError] (or a subclass), or any other [Exception]. [msg] is
    [str(exc)]. *)
Inductive delegate_exn :=
| ValueError (msg : string)
| OtherException (msg : string).

Inductive result (E A : Type) :=
| Return (a : A)
| Raise (e : E).
Arguments Return {E A} a.
Arguments Raise {E A} e.

Global Instance library_error_eq_dec : EqDecision library_error.
Proof. solve_decision. Defined.

Global Instance result_eq_dec {E A} `{EqDecision E, EqDecision A} :
  EqDecision (result E A).
Proof. solve_decision. Defined.

Definition rbind {E A B} (r : result E A) (k : A → result E B) : result E B :=
  match r with
  | Return a => k a
  | Raise e => Raise e
  end.

(** ** The secret file *)

(** What [Path("secret.json").exists()] and
    [json.loads(secret_path.read_text())] observe of the file: it is absent,
    or its text makes [json.loads] raise [JSONDecodeError] ([exc] is
    [str] of that error), or its text parses to [payload], or one of the
    three calls raises another exception [e]. *)
Inductive secret_file :=
| NoFile
| Unparseable (exc : string)
| Parsed (payload : json)
| Unreadable (e : library_error).

(** ** Reference collector *)

(** Body of the inner loop: the state is [(referenced, seen)]. *)
Definition collect_character (st : list string * gset string) (character : string)
  : list string * gset string :=
  if decide (character ∈ st.2) then st
  else (st.1 ++ [character], {[character]} ∪ st.2).

Definition collect_scene (st : list string * gset string) (scene : Scene)
  : list string * gset string :=
  foldl collect_character st (reference_images scene).

Definition _collect_referenced_characters (scenes : list Scene) : list string :=
  (foldl collect_scene ([], ∅) scenes).1.

(** The specification's reading of the collector: every reference of every
    scene, in input order, ... *)
Definition all_references (scenes : list Scene) : list string :=
  concat (reference_images <$> scenes).

(** ... with every occurrence of a name after its first one dropped. *)
Fixpoint first_occurrences (l : list string) : list string :=
  match l with
  | [] => []
  | x :: l' => x :: filter (λ y, y ≠ x) (first_occurrences l')
  end.

(** What it is for a message to enumerate names: [s] is the names of [l]
    written one after the other, in order, with [", "] between
    neighbours; ... *)
Inductive comma_separated : list string → string → Prop :=
| comma_separated_nil : comma_separated [] EmptyString
| comma_separated_one c : comma_separated [c] c
| comma_separated_more c c' l s :
    comma_separated (c' :: l) s →
    comma_separated (c :: c' :: l) (c +:+ ", " +:+ s).

(** ... and the name [c] can be read in the message [s]. *)
Definition occurs_in (c s : string) : Prop :=
  ∃ pre post, s = pre +:+ c +:+ post.

(** ** Interfaces the wrapper imports *)

(** [pathlib.Path]: the [/] operator and [str]. *)
Class Pathlib := {
  Path : Type;
  truediv : Path → string → Path;
  path_str : Path → string
}.

Infix "/@" := truediv (at level 40, left associativity).

(** The [generate] module: [OUTPUT_DIR] and the three delegates. A delegate
    either returns or fails with a [delegate_exn]. *)
Class Generate `{Pathlib} := {
  OUTPUT_DIR : Path;
  generate_character_references :
    json → list CharacterDesign → result delegate_exn pydict;
  generate_scene_videos :
    json → json → list Scene → pydict → result delegate_exn (list Path);
  stitch_videos : list Path → result delegate_exn Path
}.

(** The file system as the wrapper reads it during one request.
    [path_exists p] is the outcome of [p.exists()]: [True], [False], or an
    [OSError] the call raises. *)
Record World `{Pathlib} := {
  secret_json : secret_file;
  path_exists : Path → result library_error bool
}.

Module CharacterReferenceRequest.
Record t := {
  character_designs : list CharacterDesign;
  image_api_key : option string
}.
End CharacterReferenceRequest.

Module CharacterReferenceResponse.
Record t := { character_refs : pydict }.
End CharacterReferenceResponse.

Module SceneVideoRequest.
Record t := {
  scenes : list Scene;
  image_api_key : option string;
  veo_api_key : option string;
  character_refs : option pydict;
  autoload_refs : bool
}.
End SceneVideoRequest.

Module SceneVideoResponse.
Record t := { video_paths : list string }.
End SceneVideoResponse.

Module TrailerGenerationRequest.
Record t := {
  character_designs : list CharacterDesign;
  scenes : list Scene;
  image_api_key : option string;
  veo_api_key : option string;
  stitch_trailer : bool
}.
End TrailerGenerationRequest.

Module TrailerGenerationResponse.
Record t := {
  character_refs : pydict;
  scene_videos : list string;
  trailer_path : option string
}.
End TrailerGenerationResponse.

Section Wrapper.
Context `{G : Generate}.

(** ** Key resolution *)

Definition _load_default_api_key (w : World) : result exn json :=
  match secret_json w with
  | NoFile => Return JNull
  | Unparseable exc =>
      Raise (HTTPException 500 ("Invalid secret.json format: " +:+ exc))
  | Parsed payload =>
      match payload with
      | JObj fields => Return (dict_get fields "project_api_key")
      | _ =>
          Raise (AttributeError
                   ("'" +:+ type_name payload +:+ "' object has no attribute 'get'"))
      end
  | Unreadable e => Raise (Uncaught e)
  end.

(** [provided or _load_default_api_key()]: the loader runs only when
    [provided] is falsy. *)
Definition _resolve_api_key (w : World) (provided : option string) (key_name : string)
  : result exn json :=
  rbind (if truthy (of_optional provided) then Return (of_optional provided)
         else _load_default_api_key w)
    (λ api_key,
      if negb (truthy api_key) then
        Raise (HTTPException 400
                 (key_name +:+ " is required. Provide it in the request body or secret.json."))
      else Return api_key).

(** ** Reference map builder *)

Definition ref_path (character : string) : Path :=
  OUTPUT_DIR /@ "refs" /@ (character +:+ ".png").

(** The auto-load loop, [refs] being the dictionary built so far. *)
Fixpoint autoload (w : World) (characters : list string) (refs : pydict)
  : result exn pydict :=
  match characters with
  | [] => Return refs
  | character :: rest =>
      match path_exists w (ref_path character) with
      | Raise e => Raise (Uncaught e)
      | Return found =>
          if negb found then
            Raise (HTTPException 400
                     ("Reference image not found for '" +:+ character +:+ "' at "
                      +:+ path_str (ref_path character)))
          else
            autoload w rest (dict_setitem refs character (path_str (ref_path character)))
      end
  end.

(** [if provided_refs:] holds for a dictionary with at least one entry. *)
Definition refs_truthy (provided_refs : option pydict) : bool :=
  match provided_refs with
  | None => false
  | Some d => list_truthy d
  end.

Definition _build_character_ref_map
  (w : World) (scenes : list Scene) (provided_refs : option pydict) (autoload_refs : bool)
  : result exn pydict :=
  if refs_truthy provided_refs then
    let provided_refs := default [] provided_refs in
    let provided_missing :=
      filter (λ char, dict_contains provided_refs char = false)
             (_collect_referenced_characters scenes) in
    if list_truthy provided_missing then
      Raise (HTTPException 400
               ("Missing reference paths for: " +:+ join ", " provided_missing))
    else Return provided_refs
  else if negb autoload_refs then
    let referenced := _collect_referenced_characters scenes in
    if list_truthy referenced then
      Raise (HTTPException 400
               "Reference images required but no character_refs provided.")
    else Return []
  else autoload w (_collect_referenced_characters scenes) [].

(** ** Route handlers *)

(** A call to a delegate, with its arguments. *)
Inductive call :=
| CallGenerateCharacterReferences
    (image_api_key : json) (character_designs : list CharacterDesign)
| CallGenerateSceneVideos
    (image_api_key veo_api_key : json) (scenes : list Scene) (character_refs : pydict)
| CallStitchVideos (video_paths : list Path).

(** A handler computation: the delegate calls made, in order, and how it
    ended. *)
Definition action (E A : Type) : Type := list call * result E A.

Definition pure {E A} (a : A) : action E A := ([], Return a).

Definition bind {E A B} (m : action E A) (k : A → action E B) : action E B :=
  match m.2 with
  | Return a => (m.1 ++ (k a).1, (k a).2)
  | Raise e => (m.1, Raise e)
  end.

Definition lift {E A} (r : result E A) : action E A := ([], r).

Notation "'let!' x ':=' m 'in' k" := (bind m (λ x, k))
  (at level 10, x pattern, m at level 200, k at level 200,
   format "'[v' 'let!'  x  ':='  '[' m ']'  'in' '/' k ']'").

(** [try: body / except ValueError: 400 / except Exception: 500], the
    detail being [str(exc)]. *)
Definition try_except {A} (body : action delegate_exn A) : action exn A :=
  match body.2 with
  | Return a => (body.1, Return a)
  | Raise (ValueError msg) => (body.1, Raise (HTTPException 400 msg))
  | Raise (OtherException msg) => (body.1, Raise (HTTPException 500 msg))
  end.

Definition call_generate_character_references
  (image_api_key : json) (character_designs : list CharacterDesign)
  : action delegate_exn pydict :=
  ([CallGenerateCharacterReferences image_api_key character_designs],
   generate_character_references image_api_key character_designs).

Definition call_generate_scene_videos
  (image_api_key veo_api_key : json) (scenes : list Scene) (character_refs : pydict)
  : action delegate_exn (list Path) :=
  ([CallGenerateSceneVideos image_api_key veo_api_key scenes character_refs],
   generate_scene_videos image_api_key veo_api_key scenes character_refs).

Definition call_stitch_videos (video_paths : list Path) : action delegate_exn Path :=
  ([CallStitchVideos video_paths], stitch_videos video_paths).

Definition create_character_references (w : World) (request : CharacterReferenceRequest.t)
  : action exn CharacterReferenceResponse.t :=
  let! image_api_key :=
    lift (_resolve_api_key w (CharacterReferenceRequest.image_api_key request)
            "image_api_key") in
  let! character_refs :=
    try_except
      (call_generate_character_references image_api_key
         (CharacterReferenceRequest.character_designs request)) in
  pure {| CharacterReferenceResponse.character_refs := character_refs |}.

Definition create_scene_videos (w : World) (request : SceneVideoRequest.t)
  : action exn SceneVideoResponse.t :=
  let! image_api_key :=
    lift (_resolve_api_key w (SceneVideoRequest.image_api_key request) "image_api_key") in
  let! veo_api_key :=
    lift (_resolve_api_key w
            (or_optional (SceneVideoRequest.veo_api_key request)
                         (SceneVideoRequest.image_api_key request))
            "veo_api_key") in
  let! character_refs :=
    lift (_build_character_ref_map w
            (SceneVideoRequest.scenes request)
            (SceneVideoRequest.character_refs request)
            (SceneVideoRequest.autoload_refs request)) in
  let! videos :=
    try_except
      (call_generate_scene_videos image_api_key veo_api_key
         (SceneVideoRequest.scenes request) character_refs) in
  pure {| SceneVideoResponse.video_paths := path_str <$> videos |}.

Definition generate_trailer (w : World) (request : TrailerGenerationRequest.t)
  : action exn TrailerGenerationResponse.t :=
  let! image_api_key :=
    lift (_resolve_api_key w (TrailerGenerationRequest.image_api_key request)
            "image_api_key") in
  let! veo_api_key :=
    lift (_resolve_api_key w
            (or_optional (TrailerGenerationRequest.veo_api_key request)
                         (TrailerGenerationRequest.image_api_key request))
            "veo_api_key") in
  let! (character_refs, scene_paths, trailer_path) :=
    try_except
      (let! character_refs :=
         call_generate_character_references image_api_key
           (TrailerGenerationRequest.character_designs request) in
       let! scene_paths :=
         call_generate_scene_videos image_api_key veo_api_key
           (TrailerGenerationRequest.scenes request) character_refs in
       let! trailer_path :=
         (if TrailerGenerationRequest.stitch_trailer request then
            let! p := call_stitch_videos scene_paths in pure (Some p)
          else pure None) in
       pure (character_refs, scene_paths, trailer_path)) in
  pure {| TrailerGenerationResponse.character_refs := character_refs;
          TrailerGenerationResponse.scene_videos := path_str <$> scene_paths;
          TrailerGenerationResponse.trailer_path := path_str <$> trailer_path |}.
(** ** Notions of the specification *)

(** The names the provided-references branch reports. *)
Definition missing_from (d : pydict) (scenes : list Scene) : list string :=
  filter (λ c, c ∉ dict_keys d) (_collect_referenced_characters scenes).


(** First-match-wins over an ordered list of candidate sources: the first
    candidate that is present and non-empty, [None] without one. *)
Fixpoint first_match (candidates : list json) : json :=
  match candidates with
  | [] => JNull
  | v :: rest => if truthy v then v else first_match rest
  end.

(** The video key as the specification words it: the override, else the
    secret-file default, else the resolved image key. *)
Definition documented_video_key (veo : option string) (default image_api_key : json)
  : json :=
  first_match [of_optional veo; default; image_api_key].

(** The error-mapping rule of the generation routes. *)
Definition error_mapping_rule (e : delegate_exn) : exn :=
  match e with
  | ValueError msg => HTTPException 400 msg
  | OtherException msg => HTTPException 500 msg
  end.

(** The exception [e] is the one the existence probe of the expected
    reference file of some referenced character raised. *)
Definition probe_raised (w : World) (scenes : list Scene) (e : exn) : Prop :=
  ∃ c le, c ∈ _collect_referenced_characters scenes
          ∧ path_exists w (ref_path c) = Raise le ∧ e = Uncaught le.

End Wrapper.

(** ** A concrete instance

    Paths as plain strings joined with [/], and a [generate] module that
    follows the contracts of its delegates: used to run the wrapper on
    concrete requests. *)
Module Demo.
Definition paths : Pathlib :=
  {| Path := string; truediv p s := p +:+ "/" +:+ s; path_str p := p |}.

Definition unmapped (scenes : list Scene) (refs : pydict) : list string :=
  filter (λ c, c ∉ dict_keys refs) (concat (reference_images <$> scenes)).

Definition generate : @Generate paths :=
  {| OUTPUT_DIR := "output" : @Path paths;
     generate_character_references _ designs :=
       match designs with
       | [] => Raise (ValueError "character_designs is empty")
       | _ =>
           Return ((λ d, (character_name d,
                          "output/refs/" +:+ character_name d +:+ ".png")) <$> designs)
       end;
     generate_scene_videos _ _ scenes refs :=
       if bool_decide (Exists (λ s, duration_seconds s ≤ 0) scenes) then
         Raise (ValueError "duration_seconds must be positive")
       else
         match unmapped scenes refs with
         | [] => Return ((λ s, "output/scenes/" +:+ scene_type s +:+ ".mp4") <$> scenes)
         | c :: _ => Raise (ValueError ("no reference image for " +:+ c))
         end;
     stitch_videos video_paths :=
       match video_paths with
       | [] => Raise (OtherException "no videos to stitch")
       | _ => Return "output/trailer_no_audio.mp4"
       end |}.

Definition world (secret : secret_file) (files : list string) : @World paths :=
  {| secret_json := secret;
     path_exists p := Return (bool_decide (p ∈ files)) |}.

Definition scene (number duration : Z) (refs : list string) : Scene :=
  {| scene_number := number; scene_type := "action"; duration_seconds := duration;
     start_frame_prompt := "start"; end_frame_prompt := "end";
     video_prompt := "video"; reference_images := refs |}.

Definition design (name : string) : CharacterDesign :=
  {| character_name := name; image_generation_prompt := "portrait" |}.

Definition secret_with (key : string) : secret_file :=
  Parsed (JObj [("project_api_key", JStr key)]).



Definition scene_videos_bad_duration : SceneVideoRequest.t :=
  {| SceneVideoRequest.scenes := [scene 1 0 []];
     SceneVideoRequest.image_api_key := Some "k";
     SceneVideoRequest.veo_api_key := Some "v";
     SceneVideoRequest.character_refs := None;
     SceneVideoRequest.autoload_refs := true |}.
End Demo.

(** ** Further notions used by the properties of the routes *)

Section Observations.
Context `{G : Generate}.

(** The API keys a delegate call carries. *)
Definition call_keys (c : call) : list json :=
  match c with
  | CallGenerateCharacterReferences image_api_key _ => [image_api_key]
  | CallGenerateSceneVideos image_api_key veo_api_key _ _ => [image_api_key; veo_api_key]
  | CallStitchVideos _ => []
  end.


End Observations.

(** ** The smoke-test script [test.py]

    The loop that builds [character_refs] from the sample character designs
    (each design has the shape of a [CharacterDesign]). *)
Definition smoke_test_ref (name : string) : string :=
  "./output/refs/" +:+ name +:+ ".png".

Definition smoke_test_character_refs (character_designs : list CharacterDesign) : pydict :=
  foldl (λ character_refs char,
           let name := character_name char in
           dict_setitem character_refs name (smoke_test_ref name))
        [] character_designs.

(** Further requests of the concrete runs. *)
Module DemoRequests.
Definition trailer (stitch : bool) : TrailerGenerationRequest.t :=
  {| TrailerGenerationRequest.character_designs := [Demo.design "A"];
     TrailerGenerationRequest.scenes := [Demo.scene 1 8 ["A"]];
     TrailerGenerationRequest.image_api_key := Some "k";
     TrailerGenerationRequest.veo_api_key := None;
     TrailerGenerationRequest.stitch_trailer := stitch |}.


Definition scene_videos (image_api_key : option string) : SceneVideoRequest.t :=
  {| SceneVideoRequest.scenes := [Demo.scene 1 8 ["A"]];
     SceneVideoRequest.image_api_key := image_api_key;
     SceneVideoRequest.veo_api_key := None;
     SceneVideoRequest.character_refs := Some [("A", "a.png")];
     SceneVideoRequest.autoload_refs := true |}.

Definition character_references : CharacterReferenceRequest.t :=
  {| CharacterReferenceRequest.character_designs := [Demo.design "A"; Demo.design "B"];
     CharacterReferenceRequest.image_api_key := Some "k" |}.

(** A world whose file system refuses every probe, as for a name too long,
    and whose secret file cannot be decoded. *)
Definition refusing_world : @World Demo.paths :=
  {| secret_json := Unreadable (LibraryError "UnicodeDecodeError" "invalid start byte");
     path_exists _ := Raise (LibraryError "OSError" "[Errno 36] File name too long") |}.
End DemoRequests.

(** * Properties *)

(** ** Stable deduplication *)

Lemma filter_true_id {A} (P : A → Prop) `{∀ x, Decision (P x)} (l : list A) :
  Forall P l → filter P l = l.
Proof.
  induction 1 as [|x l Hx _ IH]; [done|].
  by rewrite filter_cons_True, IH.
Qed.

Lemma filter_nil_iff {A} (P : A → Prop) `{∀ x, Decision (P x)} (l : list A) :
  filter P l = [] ↔ ∀ x, x ∈ l → ¬ P x.
Proof.
  split.
  - intros Hnil x Hx HP. by eapply filter_nil_not_elem_of.
  - induction l as [|x l IH]; intros Hall; [done|].
    rewrite filter_cons_False by (apply Hall; left).
    apply IH. intros y Hy. apply Hall. by right.
Qed.

Lemma first_occurrences_elem (l : list string) (c : string) :
  c ∈ first_occurrences l ↔ c ∈ l.
Proof.
  induction l as [|x l IH]; simpl; [done|].
  rewrite !elem_of_cons, list_elem_of_filter, IH.
  destruct (decide (c = x)); naive_solver.
Qed.

Lemma first_occurrences_NoDup (l : list string) : NoDup (first_occurrences l).
Proof.
  induction l as [|x l IH]; simpl; [constructor|].
  apply NoDup_cons. split.
  - rewrite list_elem_of_filter. naive_solver.
  - by apply NoDup_filter.
Qed.

Lemma first_occurrences_app (l1 l2 : list string) :
  first_occurrences (l1 ++ l2)
  = first_occurrences l1 ++ filter (λ c, c ∉ l1) (first_occurrences l2).
Proof.
  induction l1 as [|x l1 IH]; simpl.
  - symmetry. apply filter_true_id, Forall_forall. intros c _. apply not_elem_of_nil.
  - f_equal. rewrite IH, filter_app, list_filter_filter. f_equal.
    apply list_filter_iff. intros c. rewrite not_elem_of_cons. naive_solver.
Qed.

(** The loop invariant of the collector: [seen] holds exactly the names of
    [referenced], and scanning [l] appends the first occurrences of the
    names of [l] that are new. *)
Lemma collect_character_foldl (l : list string) (referenced : list string) (seen : gset string) :
  (∀ c, c ∈ seen ↔ c ∈ referenced) →
  (foldl collect_character (referenced, seen) l).1
  = referenced ++ filter (λ c, c ∉ referenced) (first_occurrences l).
Proof.
  revert referenced seen.
  induction l as [|x l IH]; intros referenced seen Hseen; simpl.
  - by rewrite app_nil_r.
  - unfold collect_character at 2. simpl. destruct (decide (x ∈ seen)) as [Hin|Hnin].
    + rewrite (IH _ _ Hseen). f_equal.
      rewrite filter_cons_False by (rewrite <- Hseen; naive_solver).
      rewrite list_filter_filter. apply list_filter_iff.
      intros c. split; [|naive_solver]. intros Hc. split; [done|].
      intros ->. apply Hc, Hseen, Hin.
    + rewrite (IH (referenced ++ [x]) ({[x]} ∪ seen)).
      * rewrite <- app_assoc. simpl. f_equal.
        rewrite filter_cons_True by (by rewrite <- Hseen).
        f_equal. rewrite list_filter_filter. apply list_filter_iff.
        intros c. rewrite elem_of_app, list_elem_of_singleton. naive_solver.
      * intros c. rewrite elem_of_union, elem_of_singleton, elem_of_app,
          list_elem_of_singleton, Hseen. naive_solver.
Qed.

Lemma collect_scene_foldl (scenes : list Scene) (st : list string * gset string) :
  foldl collect_scene st scenes = foldl collect_character st (all_references scenes).
Proof.
  revert st. induction scenes as [|scene scenes IH]; intros st; [done|].
  unfold all_references. simpl. rewrite foldl_app. apply IH.
Qed.

Lemma collect_first_occurrences (scenes : list Scene) :
  _collect_referenced_characters scenes = first_occurrences (all_references scenes).
Proof.
  unfold _collect_referenced_characters.
  rewrite collect_scene_foldl, collect_character_foldl by set_solver.
  simpl. apply filter_true_id, Forall_forall. intros c _. apply not_elem_of_nil.
Qed.

Lemma all_references_elem (scenes : list Scene) (c : string) :
  c ∈ all_references scenes ↔ ∃ scene, scene ∈ scenes ∧ c ∈ reference_images scene.
Proof.
  unfold all_references. induction scenes as [|scene scenes IH]; simpl.
  - split; [by intros ?%not_elem_of_nil|]. by intros (? & ?%not_elem_of_nil & _).
  - rewrite elem_of_app, IH. split.
    + intros [Hc|(scene' & Hs & Hc)]; [exists scene|exists scene'];
        rewrite elem_of_cons; eauto.
    + intros (scene' & [->|Hs]%elem_of_cons & Hc); eauto.
Qed.

Lemma collect_elem (scenes : list Scene) (c : string) :
  c ∈ _collect_referenced_characters scenes
  ↔ ∃ scene, scene ∈ scenes ∧ c ∈ reference_images scene.
Proof. by rewrite collect_first_occurrences, first_occurrences_elem, all_references_elem. Qed.

Lemma collect_NoDup (scenes : list Scene) : NoDup (_collect_referenced_characters scenes).
Proof. rewrite collect_first_occurrences. apply first_occurrences_NoDup. Qed.

(** C2. The collector returns the distinct names of the scenes' reference
    lists, each once, in order of first appearance (scenes in input order,
    each reference list in input order): it is the stable deduplication of
    the concatenated reference lists; a name whose first occurrence follows
    the prefix [pre] is emitted right after the distinct names of [pre]; and
    without any reference the result is empty. *)
Theorem collect_referenced_characters_stable_dedup (scenes : list Scene) :
  _collect_referenced_characters scenes = first_occurrences (all_references scenes)
  ∧ NoDup (_collect_referenced_characters scenes)
  ∧ (∀ c, c ∈ _collect_referenced_characters scenes
          ↔ ∃ scene, scene ∈ scenes ∧ c ∈ reference_images scene)
  ∧ (∀ pre c post,
       all_references scenes = pre ++ c :: post → c ∉ pre →
       ∃ rest, _collect_referenced_characters scenes
               = first_occurrences pre ++ c :: rest)
  ∧ (all_references scenes = [] → _collect_referenced_characters scenes = []).
Proof.
  split; [apply collect_first_occurrences|].
  split; [apply collect_NoDup|].
  split; [apply collect_elem|].
  split.
  - intros pre c post Heq Hc. rewrite collect_first_occurrences, Heq.
    rewrite first_occurrences_app. simpl.
    rewrite filter_cons_True by done. eauto.
  - intros Heq. by rewrite collect_first_occurrences, Heq.
Qed.

(** ** Dictionaries and truth values *)

Lemma list_truthy_true {A} (l : list A) : list_truthy l = true ↔ l ≠ [].
Proof. by destruct l. Qed.

Lemma list_truthy_false {A} (l : list A) : list_truthy l = false ↔ l = [].
Proof. by destruct l. Qed.

Lemma dict_contains_true {V} (d : list (string * V)) (k : string) :
  dict_contains d k = true ↔ k ∈ dict_keys d.
Proof. unfold dict_contains. apply bool_decide_eq_true. Qed.

Lemma dict_contains_false {V} (d : list (string * V)) (k : string) :
  dict_contains d k = false ↔ k ∉ dict_keys d.
Proof. unfold dict_contains. apply bool_decide_eq_false. Qed.

Lemma dict_setitem_fresh (d : pydict) (k v : string) :
  k ∉ dict_keys d → dict_setitem d k v = d ++ [(k, v)].
Proof.
  unfold dict_keys. induction d as [|[k' v'] d IH]; simpl; [done|].
  rewrite not_elem_of_cons. intros [Hne Hk].
  destruct (decide (k' = k)); [congruence|]. by rewrite IH.
Qed.

Lemma string_append_assoc (a b c : string) : (a +:+ b) +:+ c = a +:+ (b +:+ c).
Proof.
  induction a as [|ch a IH]; [done|].
  change (String ch ((a +:+ b) +:+ c) = String ch (a +:+ (b +:+ c))). by rewrite IH.
Qed.

Lemma string_append_nil_r (a : string) : a +:+ EmptyString = a.
Proof.
  induction a as [|ch a IH]; [done|].
  change (String ch (a +:+ EmptyString) = String ch a). by rewrite IH.
Qed.

Lemma occurs_in_prefixed (c s pre : string) : occurs_in c s → occurs_in c (pre +:+ s).
Proof.
  intros (pre' & post & ->). exists (pre +:+ pre'), post.
  by rewrite string_append_assoc.
Qed.

Lemma join_comma_separated (l : list string) : comma_separated l (join ", " l).
Proof.
  induction l as [|x [|y l] IH]; simpl.
  - constructor.
  - constructor.
  - by constructor.
Qed.

Lemma join_occurs (sep : string) (l : list string) (c : string) :
  c ∈ l → occurs_in c (join sep l).
Proof.
  induction l as [|x [|y l] IH].
  - by intros ?%not_elem_of_nil.
  - intros ->%list_elem_of_singleton. exists EmptyString, EmptyString.
    simpl. by rewrite string_append_nil_r.
  - intros [->|Hc]%elem_of_cons.
    + by exists EmptyString, (sep +:+ join sep (y :: l)).
    + change (join sep (x :: y :: l)) with (x +:+ sep +:+ join sep (y :: l)).
      by do 2 apply occurs_in_prefixed; apply IH.
Qed.

Section WrapperProperties.
Context `{G : Generate}.

(** ** Reference map builder *)

Lemma provided_missing_eq (d : pydict) (scenes : list Scene) :
  filter (λ char, dict_contains d char = false) (_collect_referenced_characters scenes)
  = missing_from d scenes.
Proof. apply list_filter_iff. intros c. apply dict_contains_false. Qed.

Lemma missing_from_nil (d : pydict) (scenes : list Scene) :
  missing_from d scenes = []
  ↔ ∀ c, c ∈ _collect_referenced_characters scenes → c ∈ dict_keys d.
Proof.
  unfold missing_from. rewrite filter_nil_iff.
  split; intros Hall c Hc; specialize (Hall c Hc).
  - by destruct (decide (c ∈ dict_keys d)).
  - by intros ?.
Qed.

Lemma build_provided (w : World) (scenes : list Scene) (d : pydict) (autoload_refs : bool) :
  d ≠ [] →
  _build_character_ref_map w scenes (Some d) autoload_refs
  = if list_truthy (missing_from d scenes) then
      Raise (HTTPException 400
               ("Missing reference paths for: " +:+ join ", " (missing_from d scenes)))
    else Return d.
Proof.
  intros Hd. unfold _build_character_ref_map. simpl.
  apply list_truthy_true in Hd. rewrite Hd. by rewrite provided_missing_eq.
Qed.

(** C3. With a non-empty provided mapping: when every referenced name is
    one of its keys the builder returns the mapping itself, extra entries
    included; otherwise it raises a 400 whose detail enumerates every
    referenced name that is not a key: after its heading the detail is these
    names, each once, in collector order, separated by commas, so that every
    one of them can be read in it. *)
Theorem build_character_ref_map_provided
  (w : World) (scenes : list Scene) (provided_refs : pydict) (autoload_refs : bool) :
  provided_refs ≠ [] →
  ((∀ c, c ∈ _collect_referenced_characters scenes → c ∈ dict_keys provided_refs) →
   _build_character_ref_map w scenes (Some provided_refs) autoload_refs
   = Return provided_refs)
  ∧ (¬ (∀ c, c ∈ _collect_referenced_characters scenes → c ∈ dict_keys provided_refs) →
     ∃ missing,
       _build_character_ref_map w scenes (Some provided_refs) autoload_refs
       = Raise (HTTPException 400 ("Missing reference paths for: " +:+ join ", " missing))
       ∧ missing ≠ []
       ∧ NoDup missing
       ∧ (∀ c, c ∈ missing
               ↔ c ∈ _collect_referenced_characters scenes ∧ c ∉ dict_keys provided_refs)
       ∧ missing = filter (λ c, c ∉ dict_keys provided_refs)
                          (_collect_referenced_characters scenes)
       ∧ (∃ listing,
            _build_character_ref_map w scenes (Some provided_refs) autoload_refs
            = Raise (HTTPException 400 ("Missing reference paths for: " +:+ listing))
            ∧ comma_separated missing listing)
       ∧ (∀ c detail,
            c ∈ _collect_referenced_characters scenes → c ∉ dict_keys provided_refs →
            _build_character_ref_map w scenes (Some provided_refs) autoload_refs
            = Raise (HTTPException 400 detail) →
            occurs_in c detail)).
Proof.
  intros Hd. rewrite (build_provided w scenes provided_refs autoload_refs Hd). split.
  - intros Hall. apply missing_from_nil in Hall. by rewrite Hall.
  - intros Hnot. exists (missing_from provided_refs scenes).
    assert (missing_from provided_refs scenes ≠ []) as Hne
      by (by rewrite missing_from_nil).
    apply list_truthy_true in Hne as Htruthy. rewrite Htruthy.
    split; [done|]. split; [done|].
    split; [apply NoDup_filter, collect_NoDup|].
    assert (∀ c, c ∈ missing_from provided_refs scenes
                 ↔ c ∈ _collect_referenced_characters scenes ∧ c ∉ dict_keys provided_refs)
      as Helem.
    { intros c. unfold missing_from. rewrite list_elem_of_filter. naive_solver. }
    split; [done|]. split; [done|]. split.
    + eexists. split; [done|]. apply join_comma_separated.
    + intros c detail Hc Hk [= <-].
      apply occurs_in_prefixed, join_occurs, Helem. done.
Qed.

(** C8. Without a provided mapping and with auto-loading off: the builder
    raises the 400 "references required" error as soon as some scene
    references a character, and returns the empty map when none does. *)
Theorem build_character_ref_map_no_autoload (w : World) (scenes : list Scene) :
  ((∃ scene c, scene ∈ scenes ∧ c ∈ reference_images scene) →
   _build_character_ref_map w scenes None false
   = Raise (HTTPException 400
              "Reference images required but no character_refs provided."))
  ∧ ((∀ scene c, scene ∈ scenes → c ∉ reference_images scene) →
     _build_character_ref_map w scenes None false = Return []).
Proof.
  unfold _build_character_ref_map. simpl. split.
  - intros (scene & c & Hs & Hc).
    assert (_collect_referenced_characters scenes ≠ []) as Hne.
    { intros Hnil. assert (c ∈ _collect_referenced_characters scenes) as Hin
        by (apply collect_elem; eauto).
      rewrite Hnil in Hin. by apply not_elem_of_nil in Hin. }
    by apply list_truthy_true in Hne as ->.
  - intros Hnone.
    assert (_collect_referenced_characters scenes = []) as ->; [|done].
    destruct (_collect_referenced_characters scenes) as [|c l] eqn:Heq; [done|].
    assert (c ∈ _collect_referenced_characters scenes) as Hin by (rewrite Heq; left).
    apply collect_elem in Hin as (scene & Hs & Hc). by destruct (Hnone scene c).
Qed.

(** *** Auto-loading *)





(** C10. An empty provided mapping is treated as an absent one, whatever
    the auto-load flag, also through the scene-videos route; with
    auto-loading on it leads to the auto-load loop and never to the
    missing-names error of the provided-references branch. *)
Theorem build_character_ref_map_empty_as_absent
  (w : World) (scenes : list Scene) (autoload_refs : bool) :
  _build_character_ref_map w scenes (Some []) autoload_refs
  = _build_character_ref_map w scenes None autoload_refs
  ∧ (∀ image_api_key veo_api_key,
       create_scene_videos w
         {| SceneVideoRequest.scenes := scenes;
            SceneVideoRequest.image_api_key := image_api_key;
            SceneVideoRequest.veo_api_key := veo_api_key;
            SceneVideoRequest.character_refs := Some [];
            SceneVideoRequest.autoload_refs := autoload_refs |}
       = create_scene_videos w
           {| SceneVideoRequest.scenes := scenes;
              SceneVideoRequest.image_api_key := image_api_key;
              SceneVideoRequest.veo_api_key := veo_api_key;
              SceneVideoRequest.character_refs := None;
              SceneVideoRequest.autoload_refs := autoload_refs |})
  ∧ _build_character_ref_map w scenes (Some []) true
    = autoload w (_collect_referenced_characters scenes) []
  ∧ (∀ missing,
       _build_character_ref_map w scenes (Some []) true
       ≠ Raise (HTTPException 400
                  ("Missing reference paths for: " +:+ join ", " missing))).
Proof.
  split; [done|]. split; [done|]. split; [done|].
  intros missing. unfold _build_character_ref_map. simpl.
  generalize (@nil (string * string)).
  induction (_collect_referenced_characters scenes) as [|c l IH]; intros refs; simpl.
  - discriminate.
  - destruct (path_exists w (ref_path c)) as [[|]|e]; simpl; [apply IH|discriminate..].
Qed.

(** ** Key resolution *)


Lemma resolve_api_key_provided (w : World) (s key_name : string) :
  s ≠ EmptyString → _resolve_api_key w (Some s) key_name = Return (JStr s).
Proof. intros Hs. unfold _resolve_api_key. destruct s; [done|]. done. Qed.


Lemma resolve_api_key_truthy (w : World) (provided : option string) (key_name : string) k :
  _resolve_api_key w provided key_name = Return k → truthy k = true.
Proof.
  unfold _resolve_api_key.
  destruct (truthy (of_optional provided)) eqn:Hp; simpl.
  - rewrite Hp. simpl. by intros [= <-].
  - destruct (_load_default_api_key w) as [k'|e]; simpl; [|done].
    destruct (truthy k') eqn:Hk; simpl; [|done]. by intros [= <-].
Qed.


(** C7, where the code departs from it. A secret file that parses to a
    JSON value other than an object (here a list) makes the loader raise an
    [AttributeError]: it neither returns nor raises its 500. *)
Theorem load_default_api_key_non_object
  (path_exists : Path → result library_error bool) (items : list json) :
  _load_default_api_key
    {| secret_json := Parsed (JArr items); path_exists := path_exists |}
  = Raise (AttributeError "'list' object has no attribute 'get'")
  ∧ (∀ v, _load_default_api_key
            {| secret_json := Parsed (JArr items); path_exists := path_exists |}
          ≠ Return v)
  ∧ (∀ detail, _load_default_api_key
                 {| secret_json := Parsed (JArr items); path_exists := path_exists |}
               ≠ Raise (HTTPException 500 detail)).
Proof. by repeat split. Qed.

(** The video key of the scene-videos and trailer routes. *)
Lemma resolve_veo_api_key (w : World) (veo image : option string) (image_api_key : json) :
  _resolve_api_key w image "image_api_key" = Return image_api_key →
  _resolve_api_key w (or_optional veo image) "veo_api_key"
  = Return (first_match [of_optional veo; image_api_key]).
Proof.
  intros Himg. pose proof (resolve_api_key_truthy _ _ _ _ Himg) as Hk.
  unfold or_optional. simpl. destruct (truthy (of_optional veo)) eqn:Hveo.
  - unfold _resolve_api_key. rewrite Hveo. simpl. by rewrite Hveo.
  - rewrite Hk. revert Himg. unfold _resolve_api_key.
    destruct (truthy (of_optional image)); simpl.
    + destruct (truthy (of_optional image)); simpl; [done|]. done.
    + destruct (_load_default_api_key w) as [k|e]; simpl; [|done].
      destruct (truthy k); simpl; [done|]. done.
Qed.

Lemma resolve_veo_api_key_sources
  (w : World) (veo image : option string) (default veo_api_key : json) :
  _load_default_api_key w = Return default →
  _resolve_api_key w (or_optional veo image) "veo_api_key" = Return veo_api_key →
  veo_api_key = first_match [of_optional veo; of_optional image; default].
Proof.
  intros Hload. unfold or_optional, _resolve_api_key. simpl.
  destruct (truthy (of_optional veo)) eqn:Hveo; simpl.
  - rewrite Hveo. simpl. rewrite Hveo. simpl. by intros [= <-].
  - destruct (truthy (of_optional image)) eqn:Himg; simpl.
    + rewrite Himg. simpl. by intros [= <-].
    + rewrite Hload. simpl. destruct (truthy default); simpl; [|done]. by intros [= <-].
Qed.

(** ** Route handlers *)

(** Case analysis on a call found in a concrete trace. *)
Ltac trace_cases H :=
  repeat (apply elem_of_cons in H as [H|H]);
  try (by apply not_elem_of_nil in H); try discriminate H.

Lemma bind_lift {E A B} (r : result E A) (k : A → action E B) :
  bind (lift r) k
  = match r with
    | Return a => k a
    | Raise e => ([], Raise e)
    end.
Proof. unfold bind, lift. destruct r as [a|e]; simpl; [|done]. by destruct (k a). Qed.

Lemma create_character_references_unfold (w : World) (request : CharacterReferenceRequest.t) :
  create_character_references w request
  = match _resolve_api_key w (CharacterReferenceRequest.image_api_key request)
            "image_api_key" with
    | Raise e => ([], Raise e)
    | Return image_api_key =>
        let designs := CharacterReferenceRequest.character_designs request in
        ([CallGenerateCharacterReferences image_api_key designs],
         match generate_character_references image_api_key designs with
         | Raise e => Raise (error_mapping_rule e)
         | Return character_refs =>
             Return {| CharacterReferenceResponse.character_refs := character_refs |}
         end)
    end.
Proof.
  unfold create_character_references. rewrite bind_lift.
  destruct (_resolve_api_key _ _ _) as [ik|e]; [|done].
  unfold bind, try_except, call_generate_character_references. simpl.
  by destruct (generate_character_references _ _) as [refs|[msg|msg]].
Qed.

Lemma create_scene_videos_unfold (w : World) (request : SceneVideoRequest.t) :
  create_scene_videos w request
  = let scenes := SceneVideoRequest.scenes request in
    match _resolve_api_key w (SceneVideoRequest.image_api_key request) "image_api_key" with
    | Raise e => ([], Raise e)
    | Return image_api_key =>
        match _resolve_api_key w
                (or_optional (SceneVideoRequest.veo_api_key request)
                             (SceneVideoRequest.image_api_key request))
                "veo_api_key" with
        | Raise e => ([], Raise e)
        | Return veo_api_key =>
            match _build_character_ref_map w scenes
                    (SceneVideoRequest.character_refs request)
                    (SceneVideoRequest.autoload_refs request) with
            | Raise e => ([], Raise e)
            | Return character_refs =>
                ([CallGenerateSceneVideos image_api_key veo_api_key scenes character_refs],
                 match generate_scene_videos image_api_key veo_api_key scenes
                         character_refs with
                 | Raise e => Raise (error_mapping_rule e)
                 | Return videos =>
                     Return {| SceneVideoResponse.video_paths := path_str <$> videos |}
                 end)
            end
        end
    end.
Proof.
  unfold create_scene_videos. rewrite bind_lift.
  destruct (_resolve_api_key _ _ "image_api_key") as [ik|e]; [|done].
  rewrite bind_lift.
  destruct (_resolve_api_key _ _ "veo_api_key") as [vk|e]; [|done].
  rewrite bind_lift.
  destruct (_build_character_ref_map _ _ _ _) as [refs|e]; [|done].
  unfold bind, try_except, call_generate_scene_videos. simpl.
  by destruct (generate_scene_videos _ _ _ _) as [videos|[msg|msg]].
Qed.

Lemma generate_trailer_unfold (w : World) (request : TrailerGenerationRequest.t) :
  generate_trailer w request
  = let designs := TrailerGenerationRequest.character_designs request in
    let scenes := TrailerGenerationRequest.scenes request in
    match _resolve_api_key w (TrailerGenerationRequest.image_api_key request)
            "image_api_key" with
    | Raise e => ([], Raise e)
    | Return image_api_key =>
        match _resolve_api_key w
                (or_optional (TrailerGenerationRequest.veo_api_key request)
                             (TrailerGenerationRequest.image_api_key request))
                "veo_api_key" with
        | Raise e => ([], Raise e)
        | Return veo_api_key =>
            let c1 := CallGenerateCharacterReferences image_api_key designs in
            match generate_character_references image_api_key designs with
            | Raise e => ([c1], Raise (error_mapping_rule e))
            | Return character_refs =>
                let c2 :=
                  CallGenerateSceneVideos image_api_key veo_api_key scenes character_refs in
                match generate_scene_videos image_api_key veo_api_key scenes
                        character_refs with
                | Raise e => ([c1; c2], Raise (error_mapping_rule e))
                | Return scene_paths =>
                    if TrailerGenerationRequest.stitch_trailer request then
                      ([c1; c2; CallStitchVideos scene_paths],
                       match stitch_videos scene_paths with
                       | Raise e => Raise (error_mapping_rule e)
                       | Return p =>
                           Return
                             {| TrailerGenerationResponse.character_refs := character_refs;
                                TrailerGenerationResponse.scene_videos :=
                                  path_str <$> scene_paths;
                                TrailerGenerationResponse.trailer_path :=
                                  Some (path_str p) |}
                       end)
                    else
                      ([c1; c2],
                       Return
                         {| TrailerGenerationResponse.character_refs := character_refs;
                            TrailerGenerationResponse.scene_videos :=
                              path_str <$> scene_paths;
                            TrailerGenerationResponse.trailer_path := None |})
                end
            end
        end
    end.
Proof.
  unfold generate_trailer. rewrite bind_lift.
  destruct (_resolve_api_key _ _ "image_api_key") as [ik|e]; [|done].
  rewrite bind_lift.
  destruct (_resolve_api_key _ _ "veo_api_key") as [vk|e]; [|done].
  unfold bind, try_except, call_generate_character_references,
    call_generate_scene_videos, call_stitch_videos, pure. simpl.
  destruct (generate_character_references _ _) as [refs|[msg|msg]]; simpl; [|done|done].
  destruct (generate_scene_videos _ _ _ _) as [paths|[msg|msg]]; simpl; [|done|done].
  destruct (TrailerGenerationRequest.stitch_trailer request); simpl; [|done].
  by destruct (stitch_videos paths) as [p|[msg|msg]].
Qed.

(** *** What the builder returns and raises *)

Lemma dict_keys_setitem (d : pydict) (k v c : string) :
  c ∈ dict_keys (dict_setitem d k v) ↔ c = k ∨ c ∈ dict_keys d.
Proof.
  unfold dict_keys. induction d as [|[k' v'] d IH]; simpl.
  - rewrite list_elem_of_singleton. split; [by left|]. intros [?|?%not_elem_of_nil]; done.
  - destruct (decide (k' = k)) as [->|Hne]; simpl; rewrite !elem_of_cons.
    + naive_solver.
    + rewrite IH. naive_solver.
Qed.

Lemma autoload_keys (w : World) (characters : list string) (refs r : pydict) (c : string) :
  autoload w characters refs = Return r →
  c ∈ dict_keys refs ∨ c ∈ characters → c ∈ dict_keys r.
Proof.
  revert refs. induction characters as [|x l IH]; intros refs; simpl.
  - intros [= <-] [?|?%not_elem_of_nil]; done.
  - destruct (path_exists w (ref_path x)) as [[|]|e]; simpl; [|done..].
    intros Hr Hc. apply (IH _ Hr). rewrite dict_keys_setitem, elem_of_cons in *.
    naive_solver.
Qed.

Lemma autoload_raises (w : World) (characters : list string) (refs : pydict) (e : exn) :
  autoload w characters refs = Raise e →
  (∃ detail, e = HTTPException 400 detail)
  ∨ (∃ c le, c ∈ characters ∧ path_exists w (ref_path c) = Raise le ∧ e = Uncaught le).
Proof.
  revert refs. induction characters as [|x l IH]; intros refs; simpl; [done|].
  destruct (path_exists w (ref_path x)) as [[|]|le] eqn:Hx; simpl.
  - intros [Hd|(c & le & Hc & Hle & ->)]%IH; [by left|].
    right. exists c, le. split; [by right|done].
  - intros [= <-]. left. eauto.
  - intros [= <-]. right. exists x, le. split; [left|done].
Qed.

Lemma build_returns_cover
  (w : World) (scenes : list Scene) (provided_refs : option pydict) (autoload_refs : bool)
  (refs : pydict) :
  _build_character_ref_map w scenes provided_refs autoload_refs = Return refs →
  ∀ scene name, scene ∈ scenes → name ∈ reference_images scene → name ∈ dict_keys refs.
Proof.
  intros Hbuild scene name Hs Hname.
  assert (name ∈ _collect_referenced_characters scenes) as Hin
    by (apply collect_elem; eauto).
  revert Hbuild. unfold _build_character_ref_map.
  destruct (refs_truthy provided_refs) eqn:Hp.
  - rewrite provided_missing_eq.
    destruct (list_truthy (missing_from _ scenes)) eqn:Hm; [done|].
    intros [= <-]. apply list_truthy_false in Hm. by eapply missing_from_nil.
  - destruct autoload_refs; simpl.
    + intros Hr. eapply autoload_keys; eauto.
    + destruct (list_truthy _) eqn:Hl; [done|].
      apply list_truthy_false in Hl. rewrite Hl in Hin. by apply not_elem_of_nil in Hin.
Qed.

Lemma build_raises
  (w : World) (scenes : list Scene) (provided_refs : option pydict) (autoload_refs : bool)
  (e : exn) :
  _build_character_ref_map w scenes provided_refs autoload_refs = Raise e →
  (∃ detail, e = HTTPException 400 detail)
  ∨ (refs_truthy provided_refs = false ∧ autoload_refs = true ∧ probe_raised w scenes e).
Proof.
  unfold _build_character_ref_map.
  destruct (refs_truthy provided_refs).
  - destruct (list_truthy _); [|done]. intros [= <-]. left. eauto.
  - destruct autoload_refs; simpl.
    + intros [Hd|Hprobe]%autoload_raises; [by left|by right].
    + destruct (list_truthy _); [|done]. intros [= <-]. left. eauto.
Qed.


(** C5, as amended. The video key is the request's [veo_api_key] when
    that is present and non-empty, and the resolved image key otherwise:
    the candidates, first match wins, are [veo_api_key], the request's
    [image_api_key], the secret-file default. Both routes pass the key so
    resolved to the scene-video delegate. *)
Theorem video_key_resolution (w : World) :
  (∀ veo image image_api_key,
     _resolve_api_key w image "image_api_key" = Return image_api_key →
     _resolve_api_key w (or_optional veo image) "veo_api_key"
     = Return (first_match [of_optional veo; image_api_key]))
  ∧ (∀ veo image default veo_api_key,
       _load_default_api_key w = Return default →
       _resolve_api_key w (or_optional veo image) "veo_api_key" = Return veo_api_key →
       veo_api_key = first_match [of_optional veo; of_optional image; default])
  ∧ (∀ request image_api_key veo_api_key scenes character_refs,
       CallGenerateSceneVideos image_api_key veo_api_key scenes character_refs
         ∈ (create_scene_videos w request).1 →
       veo_api_key
       = first_match [of_optional (SceneVideoRequest.veo_api_key request); image_api_key])
  ∧ (∀ request image_api_key veo_api_key scenes character_refs,
       CallGenerateSceneVideos image_api_key veo_api_key scenes character_refs
         ∈ (generate_trailer w request).1 →
       veo_api_key
       = first_match [of_optional (TrailerGenerationRequest.veo_api_key request);
                      image_api_key]).
Proof.
  split; [intros; by apply resolve_veo_api_key|].
  split; [intros; by eapply resolve_veo_api_key_sources|].
  split.
  - intros request ik vk scenes refs. rewrite create_scene_videos_unfold. simpl.
    destruct (_resolve_api_key _ _ "image_api_key") as [ik'|e] eqn:Hik;
      [|by intros ?%not_elem_of_nil].
    rewrite (resolve_veo_api_key _ _ _ _ Hik).
    destruct (_build_character_ref_map _ _ _ _) as [refs'|e];
      [|by intros ?%not_elem_of_nil].
    simpl. by intros [= -> -> _ _]%list_elem_of_singleton.
  - intros request ik vk scenes refs. rewrite generate_trailer_unfold. simpl.
    destruct (_resolve_api_key _ _ "image_api_key") as [ik'|e] eqn:Hik;
      [|by intros ?%not_elem_of_nil].
    rewrite (resolve_veo_api_key _ _ _ _ Hik).
    destruct (generate_character_references _ _) as [refs'|de]; simpl.
    + destruct (generate_scene_videos _ _ _ _) as [paths|de']; simpl.
      * destruct (TrailerGenerationRequest.stitch_trailer request); simpl;
          intros Hc; trace_cases Hc; by injection Hc as -> ->.
      * intros Hc; trace_cases Hc; by injection Hc as -> ->.
    + intros Hc; trace_cases Hc.
Qed.

(** C9. In each of the three generation routes, once the keys are
    resolved (and, for scene videos, the reference map is built), a
    delegate that raises a [ValueError] yields a 400 and a delegate that
    raises anything else yields a 500, the detail being the delegate's
    message in both cases. *)
Theorem delegate_failures_mapped (w : World) :
  (∀ msg, error_mapping_rule (ValueError msg) = HTTPException 400 msg)
  ∧ (∀ msg, error_mapping_rule (OtherException msg) = HTTPException 500 msg)
  ∧ (∀ request image_api_key e,
       _resolve_api_key w (CharacterReferenceRequest.image_api_key request)
         "image_api_key" = Return image_api_key →
       generate_character_references image_api_key
         (CharacterReferenceRequest.character_designs request) = Raise e →
       (create_character_references w request).2 = Raise (error_mapping_rule e))
  ∧ (∀ request image_api_key veo_api_key character_refs e,
       _resolve_api_key w (SceneVideoRequest.image_api_key request) "image_api_key"
       = Return image_api_key →
       _resolve_api_key w
         (or_optional (SceneVideoRequest.veo_api_key request)
                      (SceneVideoRequest.image_api_key request))
         "veo_api_key" = Return veo_api_key →
       _build_character_ref_map w
         (SceneVideoRequest.scenes request)
         (SceneVideoRequest.character_refs request)
         (SceneVideoRequest.autoload_refs request) = Return character_refs →
       generate_scene_videos image_api_key veo_api_key
         (SceneVideoRequest.scenes request) character_refs = Raise e →
       (create_scene_videos w request).2 = Raise (error_mapping_rule e))
  ∧ (∀ request image_api_key veo_api_key,
       _resolve_api_key w (TrailerGenerationRequest.image_api_key request)
         "image_api_key" = Return image_api_key →
       _resolve_api_key w
         (or_optional (TrailerGenerationRequest.veo_api_key request)
                      (TrailerGenerationRequest.image_api_key request))
         "veo_api_key" = Return veo_api_key →
       (∀ e,
          generate_character_references image_api_key
            (TrailerGenerationRequest.character_designs request) = Raise e →
          (generate_trailer w request).2 = Raise (error_mapping_rule e))
       ∧ (∀ character_refs e,
            generate_character_references image_api_key
              (TrailerGenerationRequest.character_designs request)
            = Return character_refs →
            generate_scene_videos image_api_key veo_api_key
              (TrailerGenerationRequest.scenes request) character_refs = Raise e →
            (generate_trailer w request).2 = Raise (error_mapping_rule e))
       ∧ (∀ character_refs scene_paths e,
            generate_character_references image_api_key
              (TrailerGenerationRequest.character_designs request)
            = Return character_refs →
            generate_scene_videos image_api_key veo_api_key
              (TrailerGenerationRequest.scenes request) character_refs
            = Return scene_paths →
            TrailerGenerationRequest.stitch_trailer request = true →
            stitch_videos scene_paths = Raise e →
            (generate_trailer w request).2 = Raise (error_mapping_rule e))).
Proof.
  split; [done|]. split; [done|]. split; [|split].
  - intros request ik e Hik Hgen.
    rewrite create_character_references_unfold, Hik. simpl. by rewrite Hgen.
  - intros request ik vk refs e Hik Hvk Hbuild Hgen.
    rewrite create_scene_videos_unfold. simpl. rewrite Hik, Hvk, Hbuild. simpl.
    by rewrite Hgen.
  - intros request ik vk Hik Hvk.
    rewrite generate_trailer_unfold. simpl. rewrite Hik, Hvk.
    split; [|split].
    + intros e Hgen. by rewrite Hgen.
    + intros refs e Hrefs Hgen. by rewrite Hrefs, Hgen.
    + intros refs paths e Hrefs Hpaths Hstitch Hgen.
      rewrite Hrefs, Hpaths, Hstitch. simpl. by rewrite Hgen.
Qed.
End WrapperProperties.

(** * Concrete runs *)

Section Runs.
#[local] Existing Instance Demo.paths.
#[local] Existing Instance Demo.generate.

Local Ltac run := vm_compute; reflexivity.
Local Ltac all_in := apply Forall_forall; apply (bool_decide_unpack _); vm_compute; exact I.

(** The example of the specification: [A, B] then [B, C] collects
    [A, B, C]; [C] first occurs after [A, B, B]. *)
Lemma collect_referenced_characters_stable_dedup_witness :
  ∃ rest,
    _collect_referenced_characters [Demo.scene 1 8 ["A"; "B"]; Demo.scene 2 8 ["B"; "C"]]
    = first_occurrences ["A"; "B"; "B"] ++ "C" :: rest.
Proof.
  apply (proj1 (proj2 (proj2 (proj2
           (collect_referenced_characters_stable_dedup
              [Demo.scene 1 8 ["A"; "B"]; Demo.scene 2 8 ["B"; "C"]]))))
           ["A"; "B"; "B"] "C" []).
  - reflexivity.
  - apply (bool_decide_unpack _). vm_compute. exact I.
Defined.

Example collect_spec_example :
  _collect_referenced_characters [Demo.scene 1 8 ["A"; "B"]; Demo.scene 2 8 ["B"; "C"]]
  = ["A"; "B"; "C"].
Proof. run. Qed.

(** A provided map with an unused entry is returned as it is; a provided
    map without two of the three referenced characters is refused with both
    names. *)
Lemma build_character_ref_map_provided_witness :
  _build_character_ref_map (Demo.world NoFile [])
    [Demo.scene 1 8 ["A"; "B"]; Demo.scene 2 8 ["B"]]
    (Some [("B", "b.png"); ("A", "a.png"); ("X", "x.png")]) true
  = Return [("B", "b.png"); ("A", "a.png"); ("X", "x.png")]
  ∧ _build_character_ref_map (Demo.world NoFile [])
      [Demo.scene 1 8 ["A"; "B"]; Demo.scene 2 8 ["C"; "A"]]
      (Some [("B", "b.png")]) true
    = Raise (HTTPException 400 "Missing reference paths for: A, C")
  ∧ occurs_in "C" "Missing reference paths for: A, C".
Proof.
  split.
  - apply (build_character_ref_map_provided (Demo.world NoFile [])
             [Demo.scene 1 8 ["A"; "B"]; Demo.scene 2 8 ["B"]]
             [("B", "b.png"); ("A", "a.png"); ("X", "x.png")] true).
    + discriminate.
    + apply Forall_forall. apply (bool_decide_unpack _). vm_compute. exact I.
  - destruct (proj2 (build_character_ref_map_provided (Demo.world NoFile [])
                       [Demo.scene 1 8 ["A"; "B"]; Demo.scene 2 8 ["C"; "A"]]
                       [("B", "b.png")] true ltac:(discriminate)))
      as (missing & Hraise & _ & _ & _ & -> & _ & Hread).
    + intros Hall.
      assert ("A" ∈ dict_keys [("B", "b.png")]) as Hin.
      { apply Hall. apply (bool_decide_unpack _). vm_compute. exact I. }
      apply list_elem_of_singleton in Hin. discriminate.
    + split; [exact Hraise|].
      apply (Hread "C" _); [| |exact Hraise].
      * apply (bool_decide_unpack _). vm_compute. exact I.
      * apply (bool_decide_unpack _). vm_compute. exact I.
Defined.

Example build_provided_missing_example :
  _build_character_ref_map (Demo.world NoFile [])
    [Demo.scene 1 8 ["A"; "B"]; Demo.scene 2 8 ["C"; "A"]]
    (Some [("B", "b.png")]) true
  = Raise (HTTPException 400 "Missing reference paths for: A, C").
Proof. run. Qed.


Example build_autoload_example :
  _build_character_ref_map
    (Demo.world NoFile ["output/refs/B.png"; "output/refs/A.png"])
    [Demo.scene 1 8 ["A"; "B"]; Demo.scene 2 8 ["B"]] None true
  = Return [("A", "output/refs/A.png"); ("B", "output/refs/B.png")].
Proof. run. Qed.

Example build_autoload_first_missing_example :
  _build_character_ref_map (Demo.world NoFile ["output/refs/A.png"])
    [Demo.scene 1 8 ["A"; "B"]; Demo.scene 2 8 ["C"]] None true
  = Raise (HTTPException 400
             "Reference image not found for 'B' at output/refs/B.png").
Proof. run. Qed.

(** A referenced character, no map, auto-loading off. *)
Lemma build_character_ref_map_no_autoload_witness :
  _build_character_ref_map (Demo.world NoFile [])
    [Demo.scene 1 8 []; Demo.scene 2 8 ["A"]] None false
  = Raise (HTTPException 400
             "Reference images required but no character_refs provided.").
Proof.
  apply (proj1 (build_character_ref_map_no_autoload (Demo.world NoFile [])
                  [Demo.scene 1 8 []; Demo.scene 2 8 ["A"]])).
  exists (Demo.scene 2 8 ["A"]), "A". split.
  - right. left.
  - left.
Defined.

Example build_no_autoload_no_refs_example :
  _build_character_ref_map (Demo.world NoFile [])
    [Demo.scene 1 8 []; Demo.scene 2 8 []] None false
  = Return [].
Proof. run. Qed.

(** ** Key resolution *)



(** A request key for images only, and a secret file. *)
Lemma video_key_resolution_witness :
  _resolve_api_key (Demo.world (Demo.secret_with "SEC") [])
    (or_optional None (Some "IMG")) "veo_api_key"
  = Return (first_match [of_optional None; JStr "IMG"]).
Proof.
  apply (proj1 (video_key_resolution (Demo.world (Demo.secret_with "SEC") []))
           None (Some "IMG") (JStr "IMG")).
  reflexivity.
Defined.

(** C5, where the claim fails: the override is absent and the secret-file
    default [SEC] is present, yet the video key is the request's image key
    [IMG], not the default the documented order would pick. *)
Lemma video_key_prefers_request_image_key :
  _load_default_api_key (Demo.world (Demo.secret_with "SEC") []) = Return (JStr "SEC")
  ∧ _resolve_api_key (Demo.world (Demo.secret_with "SEC") []) (Some "IMG") "image_api_key"
    = Return (JStr "IMG")
  ∧ _resolve_api_key (Demo.world (Demo.secret_with "SEC") [])
      (or_optional None (Some "IMG")) "veo_api_key"
    = Return (JStr "IMG")
  ∧ documented_video_key None (JStr "SEC") (JStr "IMG") = JStr "SEC"
  ∧ _resolve_api_key (Demo.world (Demo.secret_with "SEC") [])
      (or_optional None (Some "IMG")) "veo_api_key"
    ≠ Return (documented_video_key None (JStr "SEC") (JStr "IMG")).
Proof. repeat split; try reflexivity. discriminate. Qed.

(** ** Routes *)



(** The scene-video delegate rejects its input: a 400 with its message. *)
Lemma delegate_failures_mapped_witness :
  (create_scene_videos (Demo.world NoFile []) Demo.scene_videos_bad_duration).2
  = Raise (HTTPException 400 "duration_seconds must be positive").
Proof.
  apply (proj1 (proj2 (proj2 (proj2 (delegate_failures_mapped (Demo.world NoFile [])))))
           Demo.scene_videos_bad_duration (JStr "k") (JStr "v") []
           (ValueError "duration_seconds must be positive"));
    reflexivity.
Defined.

Example trailer_empty_stitch_example :
  (generate_trailer (Demo.world NoFile [])
     {| TrailerGenerationRequest.character_designs := [Demo.design "A"];
        TrailerGenerationRequest.scenes := [];
        TrailerGenerationRequest.image_api_key := Some "k";
        TrailerGenerationRequest.veo_api_key := None;
        TrailerGenerationRequest.stitch_trailer := true |}).2
  = Raise (HTTPException 500 "no videos to stitch").
Proof. run. Qed.

Example trailer_without_stitching_example :
  generate_trailer (Demo.world NoFile [])
    {| TrailerGenerationRequest.character_designs := [Demo.design "A"];
       TrailerGenerationRequest.scenes := [Demo.scene 1 8 ["A"]];
       TrailerGenerationRequest.image_api_key := Some "k";
       TrailerGenerationRequest.veo_api_key := None;
       TrailerGenerationRequest.stitch_trailer := false |}
  = ([CallGenerateCharacterReferences (JStr "k") [Demo.design "A"];
      CallGenerateSceneVideos (JStr "k") (JStr "k") [Demo.scene 1 8 ["A"]]
        [("A", "output/refs/A.png")]],
     Return {| TrailerGenerationResponse.character_refs := [("A", "output/refs/A.png")];
               TrailerGenerationResponse.scene_videos := ["output/scenes/action.mp4"];
               TrailerGenerationResponse.trailer_path := None |}).
Proof. run. Qed.
End Runs.

(** * Further properties *)

(** ** Reference collector *)

Lemma all_references_app (scenes1 scenes2 : list Scene) :
  all_references (scenes1 ++ scenes2) = all_references scenes1 ++ all_references scenes2.
Proof. unfold all_references. by rewrite fmap_app, concat_app. Qed.

Lemma collect_app (scenes1 scenes2 : list Scene) :
  _collect_referenced_characters (scenes1 ++ scenes2)
  = _collect_referenced_characters scenes1
    ++ filter (λ c, c ∉ _collect_referenced_characters scenes1)
         (_collect_referenced_characters scenes2).
Proof.
  rewrite !collect_first_occurrences, all_references_app, first_occurrences_app.
  f_equal. apply list_filter_iff. intros c. by rewrite first_occurrences_elem.
Qed.

Lemma first_occurrences_sublist (l : list string) : first_occurrences l `sublist_of` l.
Proof.
  induction l as [|x l IH]; simpl; [constructor|].
  apply sublist_skip. etrans; [apply sublist_filter|done].
Qed.

(** X1. Collecting over two scene lists in a row yields what the first list
    yields, followed by the names the second list adds, in their own
    collector order. *)
Theorem collect_referenced_characters_app (scenes1 scenes2 : list Scene) :
  _collect_referenced_characters (scenes1 ++ scenes2)
  = _collect_referenced_characters scenes1
    ++ filter (λ c, c ∉ _collect_referenced_characters scenes1)
         (_collect_referenced_characters scenes2)
  ∧ _collect_referenced_characters scenes1
    `prefix_of` _collect_referenced_characters (scenes1 ++ scenes2).
Proof.
  split; [apply collect_app|]. rewrite collect_app. by eexists.
Qed.

(** X2. The collector only drops entries: its result is a subsequence of the
    scenes' reference lists read in order, so it is never longer than
    them. *)
Theorem collect_referenced_characters_sublist (scenes : list Scene) :
  _collect_referenced_characters scenes `sublist_of` all_references scenes
  ∧ (length (_collect_referenced_characters scenes)
     ≤ length (all_references scenes))%nat.
Proof.
  assert (_collect_referenced_characters scenes `sublist_of` all_references scenes) as Hsub
    by (rewrite collect_first_occurrences; apply first_occurrences_sublist).
  split; [done|]. by apply sublist_length.
Qed.

(** X3. Scenes that reference only characters already referenced add
    nothing to the collection. *)
Theorem collect_referenced_characters_absorb (scenes1 scenes2 : list Scene) :
  (∀ scene c, scene ∈ scenes2 → c ∈ reference_images scene →
              ∃ scene', scene' ∈ scenes1 ∧ c ∈ reference_images scene') →
  _collect_referenced_characters (scenes1 ++ scenes2)
  = _collect_referenced_characters scenes1.
Proof.
  intros Hold. rewrite collect_app.
  rewrite (proj2 (filter_nil_iff _ _)); [by rewrite app_nil_r|].
  intros c Hc Hnew. apply Hnew.
  apply collect_elem in Hc as (scene & Hs & Hc). apply collect_elem. eauto.
Qed.

Section FurtherWrapperProperties.
Context `{G : Generate}.

(** ** Reference map builder *)

Lemma autoload_agree (w1 w2 : World) (characters : list string) (refs : pydict) :
  (∀ c, c ∈ characters → path_exists w1 (ref_path c) = path_exists w2 (ref_path c)) →
  autoload w1 characters refs = autoload w2 characters refs.
Proof.
  revert refs. induction characters as [|x l IH]; intros refs Hagree; simpl; [done|].
  rewrite <- (Hagree x) by left.
  destruct (path_exists w1 (ref_path x)) as [[|]|le]; simpl; [|done..].
  apply IH. intros c Hc. apply Hagree. by right.
Qed.

Lemma autoload_agree_build
  (w1 w2 : World) (scenes : list Scene) (provided_refs : option pydict)
  (autoload_refs : bool) :
  (∀ p, path_exists w1 p = path_exists w2 p) →
  _build_character_ref_map w1 scenes provided_refs autoload_refs
  = _build_character_ref_map w2 scenes provided_refs autoload_refs.
Proof.
  intros Hfiles. unfold _build_character_ref_map.
  destruct (refs_truthy provided_refs); [done|].
  destruct autoload_refs; simpl; [|done]. apply autoload_agree. intros c _. apply Hfiles.
Qed.

(** X4. The builder reads nothing of the file system but the existence of
    the expected reference file of each referenced character: two worlds
    that agree on those give the same result; and with a non-empty provided
    map, or with auto-loading off, the result is the same in every world. *)
Theorem build_character_ref_map_probes_only_refs
  (w1 w2 : World) (scenes : list Scene) (provided_refs : option pydict)
  (autoload_refs : bool) :
  ((∀ c, c ∈ _collect_referenced_characters scenes →
         path_exists w1 (ref_path c) = path_exists w2 (ref_path c)) →
   _build_character_ref_map w1 scenes provided_refs autoload_refs
   = _build_character_ref_map w2 scenes provided_refs autoload_refs)
  ∧ (refs_truthy provided_refs = true ∨ autoload_refs = false →
     _build_character_ref_map w1 scenes provided_refs autoload_refs
     = _build_character_ref_map w2 scenes provided_refs autoload_refs).
Proof.
  unfold _build_character_ref_map. split.
  - intros Hagree. destruct (refs_truthy provided_refs); [done|].
    destruct autoload_refs; simpl; [by apply autoload_agree|done].
  - intros [-> | ->]; [done|]. by destruct (refs_truthy provided_refs).
Qed.

(** X5. Whatever branch it takes, when the builder returns, the map has an
    entry for every referenced character; when it raises, it raises a 400,
    or, on the auto-load branch only, the error that the existence probe of
    a referenced character's expected file raised. *)
Theorem build_character_ref_map_postcondition
  (w : World) (scenes : list Scene) (provided_refs : option pydict) (autoload_refs : bool) :
  match _build_character_ref_map w scenes provided_refs autoload_refs with
  | Return character_refs =>
      ∀ c, c ∈ _collect_referenced_characters scenes → c ∈ dict_keys character_refs
  | Raise e =>
      (∃ detail, e = HTTPException 400 detail)
      ∨ (refs_truthy provided_refs = false ∧ autoload_refs = true
         ∧ ∃ c le, c ∈ _collect_referenced_characters scenes
                   ∧ path_exists w (ref_path c) = Raise le ∧ e = Uncaught le)
  end.
Proof.
  destruct (_build_character_ref_map w scenes provided_refs autoload_refs)
    as [refs|e] eqn:Hbuild.
  - intros c (scene & Hs & Hc)%collect_elem. by eapply build_returns_cover.
  - by eapply build_raises.
Qed.

(** ** Key resolution *)



(** X6. A key the resolver returns is never empty: it is a value Python
    holds true; and when the request supplies a non-empty key, the outcome
    does not depend on the secret file or on [key_name]. *)
Theorem resolve_api_key_nonempty
  (w : World) (provided : option string) (key_name : string) :
  (∀ api_key, _resolve_api_key w provided key_name = Return api_key →
              truthy api_key = true ∧ api_key ≠ JNull ∧ api_key ≠ JStr EmptyString)
  ∧ (truthy (of_optional provided) = true →
     ∀ w' key_name',
       _resolve_api_key w' provided key_name' = _resolve_api_key w provided key_name).
Proof.
  split.
  - intros k Hk. apply resolve_api_key_truthy in Hk.
    split; [done|]. split; intros ->; discriminate.
  - intros Hp w' key_name'. unfold _resolve_api_key. rewrite Hp. simpl. by rewrite Hp.
Qed.

(** ** Routes *)

Ltac in_trace H :=
  repeat (apply elem_of_cons in H as [H|H]);
  try (by apply not_elem_of_nil in H); try discriminate H.

(** X7. Every key a route passes to a delegate is a resolved one, hence
    non-empty. *)
Theorem delegates_receive_nonempty_keys (w : World) :
  (∀ request c k,
     c ∈ (create_character_references w request).1 → k ∈ call_keys c → truthy k = true)
  ∧ (∀ request c k,
       c ∈ (create_scene_videos w request).1 → k ∈ call_keys c → truthy k = true)
  ∧ (∀ request c k,
       c ∈ (generate_trailer w request).1 → k ∈ call_keys c → truthy k = true).
Proof.
  split; [|split].
  - intros request c k. rewrite create_character_references_unfold.
    destruct (_resolve_api_key _ _ _) as [ik|e] eqn:Hik; [|by intros ?%not_elem_of_nil].
    apply resolve_api_key_truthy in Hik.
    simpl. intros ->%list_elem_of_singleton. simpl. by intros ->%list_elem_of_singleton.
  - intros request c k. rewrite create_scene_videos_unfold. simpl.
    destruct (_resolve_api_key _ _ "image_api_key") as [ik|e] eqn:Hik;
      [|by intros ?%not_elem_of_nil].
    destruct (_resolve_api_key _ _ "veo_api_key") as [vk|e] eqn:Hvk;
      [|by intros ?%not_elem_of_nil].
    apply resolve_api_key_truthy in Hik, Hvk.
    destruct (_build_character_ref_map _ _ _ _) as [refs|e];
      [|by intros ?%not_elem_of_nil].
    simpl. intros ->%list_elem_of_singleton. simpl. intros Hk. by in_trace Hk; subst.
  - intros request c k. rewrite generate_trailer_unfold. simpl.
    destruct (_resolve_api_key _ _ "image_api_key") as [ik|e] eqn:Hik;
      [|by intros ?%not_elem_of_nil].
    destruct (_resolve_api_key _ _ "veo_api_key") as [vk|e] eqn:Hvk;
      [|by intros ?%not_elem_of_nil].
    apply resolve_api_key_truthy in Hik, Hvk.
    destruct (generate_character_references _ _) as [refs|de]; simpl;
      [destruct (generate_scene_videos _ _ _ _) as [paths|de]; simpl;
       [destruct (TrailerGenerationRequest.stitch_trailer request); simpl|]|];
      intros Hc; in_trace Hc; subst c; simpl; intros Hk; by in_trace Hk; subst.
Qed.

(** X8. When the image key cannot be resolved, each route raises the
    resolver's exception without calling any delegate. *)
Theorem unresolved_key_no_delegate_call (w : World) (e : exn) :
  (∀ request,
     _resolve_api_key w (CharacterReferenceRequest.image_api_key request) "image_api_key"
     = Raise e →
     create_character_references w request = ([], Raise e))
  ∧ (∀ request,
       _resolve_api_key w (SceneVideoRequest.image_api_key request) "image_api_key"
       = Raise e →
       create_scene_videos w request = ([], Raise e))
  ∧ (∀ request,
       _resolve_api_key w (TrailerGenerationRequest.image_api_key request) "image_api_key"
       = Raise e →
       generate_trailer w request = ([], Raise e)).
Proof.
  split; [|split]; intros request Hik.
  - by rewrite create_character_references_unfold, Hik.
  - rewrite create_scene_videos_unfold. simpl. by rewrite Hik.
  - rewrite generate_trailer_unfold. simpl. by rewrite Hik.
Qed.


(** X10. The trailer route calls its delegates in order, each on what the
    previous one returned: the scene-video delegate gets the request's
    scenes and exactly the map the character-reference delegate returned;
    stitching is called only when requested, on exactly the list of paths
    the scene-video delegate returned. *)
Theorem generate_trailer_call_chain
  (w : World) (request : TrailerGenerationRequest.t) (c : call) :
  c ∈ (generate_trailer w request).1 →
  match c with
  | CallGenerateCharacterReferences image_api_key character_designs =>
      _resolve_api_key w (TrailerGenerationRequest.image_api_key request) "image_api_key"
      = Return image_api_key
      ∧ character_designs = TrailerGenerationRequest.character_designs request
  | CallGenerateSceneVideos image_api_key veo_api_key scenes character_refs =>
      scenes = TrailerGenerationRequest.scenes request
      ∧ generate_character_references image_api_key
          (TrailerGenerationRequest.character_designs request)
        = Return character_refs
  | CallStitchVideos video_paths =>
      TrailerGenerationRequest.stitch_trailer request = true
      ∧ ∃ image_api_key veo_api_key character_refs,
          generate_character_references image_api_key
            (TrailerGenerationRequest.character_designs request)
          = Return character_refs
          ∧ generate_scene_videos image_api_key veo_api_key
              (TrailerGenerationRequest.scenes request) character_refs
            = Return video_paths
  end.
Proof.
  rewrite generate_trailer_unfold. simpl.
  destruct (_resolve_api_key _ _ "image_api_key") as [ik|e] eqn:Hik;
    [|by intros ?%not_elem_of_nil].
  destruct (_resolve_api_key _ _ "veo_api_key") as [vk|e] eqn:Hvk;
    [|by intros ?%not_elem_of_nil].
  destruct (generate_character_references _ _) as [refs|de] eqn:Hrefs; simpl;
    [destruct (generate_scene_videos _ _ _ _) as [paths|de] eqn:Hpaths; simpl;
     [destruct (TrailerGenerationRequest.stitch_trailer request) eqn:Hstitch; simpl|]|];
    intros Hc; in_trace Hc; subst c; eauto 10.
Qed.

(** X11. With [stitch_trailer] false the trailer route never calls the
    stitching delegate and a successful response has no trailer path; with
    [stitch_trailer] true a successful response has the path the stitching
    delegate returned. *)
Theorem generate_trailer_stitching (w : World) (request : TrailerGenerationRequest.t) :
  (TrailerGenerationRequest.stitch_trailer request = false →
   (∀ video_paths, CallStitchVideos video_paths ∉ (generate_trailer w request).1)
   ∧ (∀ response, (generate_trailer w request).2 = Return response →
                  TrailerGenerationResponse.trailer_path response = None))
  ∧ (TrailerGenerationRequest.stitch_trailer request = true →
     ∀ response, (generate_trailer w request).2 = Return response →
       ∃ video_paths p,
         CallStitchVideos video_paths ∈ (generate_trailer w request).1
         ∧ stitch_videos video_paths = Return p
         ∧ TrailerGenerationResponse.trailer_path response = Some (path_str p)).
Proof.
  rewrite generate_trailer_unfold. simpl.
  destruct (_resolve_api_key _ _ "image_api_key") as [ik|e].
  2: { split; intros _; [split|]; [by intros ? ?%not_elem_of_nil|done|done]. }
  destruct (_resolve_api_key _ _ "veo_api_key") as [vk|e].
  2: { split; intros _; [split|]; [by intros ? ?%not_elem_of_nil|done|done]. }
  destruct (generate_character_references _ _) as [refs|de]; simpl.
  2: { split; intros _; [split|]; [|done|done]. intros ? Hc. in_trace Hc. }
  destruct (generate_scene_videos _ _ _ _) as [paths|de]; simpl.
  2: { split; intros _; [split|]; [|done|done]. intros ? Hc. in_trace Hc. }
  split; intros ->; simpl.
  - split; [intros ? Hc; in_trace Hc|]. by intros response [= <-].
  - intros response. destruct (stitch_videos paths) as [p|de] eqn:Hp; [|done].
    intros [= <-]. exists paths, p. split; [|done]. do 2 right. left.
Qed.

(** X12. A successful trailer response carries the map the
    character-reference delegate returned and, in the same order, the
    string of each path the scene-video delegate returned. *)
Theorem generate_trailer_success
  (w : World) (request : TrailerGenerationRequest.t)
  (response : TrailerGenerationResponse.t) :
  (generate_trailer w request).2 = Return response →
  ∃ image_api_key veo_api_key scene_paths,
    generate_character_references image_api_key
      (TrailerGenerationRequest.character_designs request)
    = Return (TrailerGenerationResponse.character_refs response)
    ∧ generate_scene_videos image_api_key veo_api_key
        (TrailerGenerationRequest.scenes request)
        (TrailerGenerationResponse.character_refs response)
      = Return scene_paths
    ∧ TrailerGenerationResponse.scene_videos response = path_str <$> scene_paths
    ∧ length (TrailerGenerationResponse.scene_videos response) = length scene_paths.
Proof.
  rewrite generate_trailer_unfold. simpl.
  destruct (_resolve_api_key _ _ "image_api_key") as [ik|e]; [|done].
  destruct (_resolve_api_key _ _ "veo_api_key") as [vk|e]; [|done].
  destruct (generate_character_references _ _) as [refs|de] eqn:Hrefs; simpl; [|done].
  destruct (generate_scene_videos _ _ _ _) as [paths|de] eqn:Hpaths; simpl; [|done].
  destruct (TrailerGenerationRequest.stitch_trailer request); simpl.
  - destruct (stitch_videos paths) as [p|de]; [|done].
    intros [= <-]. exists ik, vk, paths. simpl. by rewrite length_fmap.
  - intros [= <-]. exists ik, vk, paths. simpl. by rewrite length_fmap.
Qed.

(** X13. The scene-videos route calls no delegate but the scene-video one,
    at most once; a successful response lists, in the same order, the
    string of each path that one call returned for the built map. *)
Theorem create_scene_videos_single_call (w : World) (request : SceneVideoRequest.t) :
  (length (create_scene_videos w request).1 ≤ 1)%nat
  ∧ (∀ response, (create_scene_videos w request).2 = Return response →
       ∃ image_api_key veo_api_key character_refs videos,
         _build_character_ref_map w
           (SceneVideoRequest.scenes request)
           (SceneVideoRequest.character_refs request)
           (SceneVideoRequest.autoload_refs request) = Return character_refs
         ∧ (create_scene_videos w request).1
           = [CallGenerateSceneVideos image_api_key veo_api_key
                (SceneVideoRequest.scenes request) character_refs]
         ∧ generate_scene_videos image_api_key veo_api_key
             (SceneVideoRequest.scenes request) character_refs = Return videos
         ∧ SceneVideoResponse.video_paths response = path_str <$> videos).
Proof.
  rewrite create_scene_videos_unfold. simpl.
  destruct (_resolve_api_key _ _ "image_api_key") as [ik|e]; [|by split; [simpl; lia|]].
  destruct (_resolve_api_key _ _ "veo_api_key") as [vk|e]; [|by split; [simpl; lia|]].
  destruct (_build_character_ref_map _ _ _ _) as [refs|e]; [|by split; [simpl; lia|]].
  simpl. split; [lia|]. intros response.
  destruct (generate_scene_videos _ _ _ _) as [videos|de] eqn:Hvideos; [|done].
  intros [= <-]. by exists ik, vk, refs, videos.
Qed.

(** X14. The character-references route calls no delegate but the
    character-reference one, at most once, on the request's designs as they
    are; a successful response carries the map that call returned. *)
Theorem create_character_references_single_call
  (w : World) (request : CharacterReferenceRequest.t) :
  (∀ c, c ∈ (create_character_references w request).1 →
        (create_character_references w request).1 = [c]
        ∧ ∃ image_api_key,
            c = CallGenerateCharacterReferences image_api_key
                  (CharacterReferenceRequest.character_designs request))
  ∧ (∀ response, (create_character_references w request).2 = Return response →
       ∃ image_api_key,
         (create_character_references w request).1
         = [CallGenerateCharacterReferences image_api_key
              (CharacterReferenceRequest.character_designs request)]
         ∧ generate_character_references image_api_key
             (CharacterReferenceRequest.character_designs request)
           = Return (CharacterReferenceResponse.character_refs response)).
Proof.
  rewrite create_character_references_unfold.
  destruct (_resolve_api_key _ _ _) as [ik|e]; simpl.
  - split.
    + intros c ->%list_elem_of_singleton. eauto.
    + intros response.
      destruct (generate_character_references _ _) as [refs|de] eqn:Hrefs; [|done].
      intros [= <-]. by exists ik.
  - split; [by intros c ?%not_elem_of_nil|done].
Qed.

(** X15. An empty-string key in a request is treated as an omitted one, in
    the resolver and in the three routes, for the image key and for the
    video key. *)
Theorem empty_key_as_absent (w : World) :
  (∀ key_name, _resolve_api_key w (Some EmptyString) key_name
               = _resolve_api_key w None key_name)
  ∧ (∀ character_designs,
       create_character_references w
         {| CharacterReferenceRequest.character_designs := character_designs;
            CharacterReferenceRequest.image_api_key := Some EmptyString |}
       = create_character_references w
           {| CharacterReferenceRequest.character_designs := character_designs;
              CharacterReferenceRequest.image_api_key := None |})
  ∧ (∀ scenes character_refs autoload_refs image_api_key veo_api_key,
       (image_api_key = None ∨ image_api_key = Some EmptyString) →
       (veo_api_key = None ∨ veo_api_key = Some EmptyString) →
       create_scene_videos w
         {| SceneVideoRequest.scenes := scenes;
            SceneVideoRequest.image_api_key := image_api_key;
            SceneVideoRequest.veo_api_key := veo_api_key;
            SceneVideoRequest.character_refs := character_refs;
            SceneVideoRequest.autoload_refs := autoload_refs |}
       = create_scene_videos w
           {| SceneVideoRequest.scenes := scenes;
              SceneVideoRequest.image_api_key := None;
              SceneVideoRequest.veo_api_key := None;
              SceneVideoRequest.character_refs := character_refs;
              SceneVideoRequest.autoload_refs := autoload_refs |})
  ∧ (∀ character_designs scenes stitch_trailer image_api_key veo_api_key,
       (image_api_key = None ∨ image_api_key = Some EmptyString) →
       (veo_api_key = None ∨ veo_api_key = Some EmptyString) →
       generate_trailer w
         {| TrailerGenerationRequest.character_designs := character_designs;
            TrailerGenerationRequest.scenes := scenes;
            TrailerGenerationRequest.image_api_key := image_api_key;
            TrailerGenerationRequest.veo_api_key := veo_api_key;
            TrailerGenerationRequest.stitch_trailer := stitch_trailer |}
       = generate_trailer w
           {| TrailerGenerationRequest.character_designs := character_designs;
              TrailerGenerationRequest.scenes := scenes;
              TrailerGenerationRequest.image_api_key := None;
              TrailerGenerationRequest.veo_api_key := None;
              TrailerGenerationRequest.stitch_trailer := stitch_trailer |}).
Proof.
  split; [done|]. split; [done|]. split.
  - by intros scenes refs al ik vk [-> | ->] [-> | ->].
  - by intros designs scenes st ik vk [-> | ->] [-> | ->].
Qed.

(** X16. A request that carries a non-empty image key never reads the
    secret file: the character-references and trailer routes behave the same
    in every world, the scene-videos route the same in worlds that agree on
    which files exist. *)
Theorem image_key_given_secret_unread (w1 w2 : World) :
  (∀ request s,
     CharacterReferenceRequest.image_api_key request = Some s → s ≠ EmptyString →
     create_character_references w1 request = create_character_references w2 request)
  ∧ (∀ request s,
       TrailerGenerationRequest.image_api_key request = Some s → s ≠ EmptyString →
       generate_trailer w1 request = generate_trailer w2 request)
  ∧ (∀ request s,
       SceneVideoRequest.image_api_key request = Some s → s ≠ EmptyString →
       (∀ p, path_exists w1 p = path_exists w2 p) →
       create_scene_videos w1 request = create_scene_videos w2 request).
Proof.
  assert (∀ s veo k, s ≠ EmptyString →
            _resolve_api_key w1 (or_optional veo (Some s)) k
            = _resolve_api_key w2 (or_optional veo (Some s)) k) as Hveo.
  { intros s veo k Hs. unfold or_optional, _resolve_api_key.
    destruct (truthy (of_optional veo)) eqn:Hv; [by rewrite Hv|].
    by destruct s. }
  split; [|split].
  - intros request s Hk Hs.
    rewrite !create_character_references_unfold, Hk.
    by rewrite !resolve_api_key_provided.
  - intros request s Hk Hs.
    rewrite !generate_trailer_unfold, Hk. simpl.
    by rewrite !resolve_api_key_provided, Hveo.
  - intros request s Hk Hs Hfiles.
    rewrite !create_scene_videos_unfold, Hk. simpl.
    rewrite !resolve_api_key_provided, Hveo by done.
    by rewrite (autoload_agree_build w1 w2).
Qed.
End FurtherWrapperProperties.

(** ** The smoke-test script *)

Lemma dict_setitem_present (f : string → string) (names : list string) (k : string) :
  k ∈ names →
  dict_setitem ((λ n, (n, f n)) <$> names) k (f k) = (λ n, (n, f n)) <$> names.
Proof.
  induction names as [|x l IH]; [by intros ?%not_elem_of_nil|].
  rewrite fmap_cons. simpl. destruct (decide (x = k)) as [->|Hne]; [done|].
  intros [?|Hk]%elem_of_cons; [congruence|]. by rewrite IH.
Qed.

Lemma dict_keys_fmap_pair (f : string → string) (names : list string) :
  dict_keys ((λ n, (n, f n)) <$> names) = names.
Proof.
  unfold dict_keys. induction names as [|x l IH]; [done|].
  rewrite !fmap_cons. simpl. by f_equal.
Qed.

Lemma smoke_test_foldl (character_designs : list CharacterDesign) (names : list string) :
  foldl (λ character_refs char,
           let name := character_name char in
           dict_setitem character_refs name (smoke_test_ref name))
        ((λ n, (n, smoke_test_ref n)) <$> names) character_designs
  = (λ n, (n, smoke_test_ref n))
      <$> (names ++ filter (λ c, c ∉ names)
                      (first_occurrences (character_name <$> character_designs))).
Proof.
  revert names. induction character_designs as [|d l IH]; intros names.
  - simpl. by rewrite app_nil_r.
  - rewrite fmap_cons. simpl. destruct (decide (character_name d ∈ names)) as [Hin|Hnin].
    + rewrite dict_setitem_present by done. rewrite IH. do 2 f_equal.
      rewrite filter_cons_False by naive_solver.
      rewrite list_filter_filter. apply list_filter_iff.
      intros c. split; [|naive_solver]. intros Hc. split; [done|]. by intros ->.
    + rewrite dict_setitem_fresh by (by rewrite dict_keys_fmap_pair).
      change [(character_name d, smoke_test_ref (character_name d))]
        with ((λ n, (n, smoke_test_ref n)) <$> [character_name d]).
      rewrite <- fmap_app, IH, <- app_assoc. simpl. do 2 f_equal.
      rewrite filter_cons_True by done. f_equal.
      rewrite list_filter_filter. apply list_filter_iff.
      intros c. rewrite elem_of_app, list_elem_of_singleton. naive_solver.
Qed.

(** X17. The map the smoke test builds has one entry per distinct design
    name, in order of first appearance, each name mapped to
    [./output/refs/<name>.png]: a repeated name neither adds an entry nor
    moves the first one. *)
Theorem smoke_test_character_refs_entries (character_designs : list CharacterDesign) :
  smoke_test_character_refs character_designs
  = (λ name, (name, "./output/refs/" +:+ name +:+ ".png"))
      <$> first_occurrences (character_name <$> character_designs)
  ∧ NoDup (dict_keys (smoke_test_character_refs character_designs))
  ∧ (∀ name, name ∈ dict_keys (smoke_test_character_refs character_designs)
             ↔ ∃ d, d ∈ character_designs ∧ character_name d = name).
Proof.
  assert (smoke_test_character_refs character_designs
          = (λ n, (n, smoke_test_ref n))
              <$> first_occurrences (character_name <$> character_designs)) as Heq.
  { unfold smoke_test_character_refs.
    etrans; [apply (smoke_test_foldl character_designs [])|]. simpl. f_equal.
    apply filter_true_id, Forall_forall. intros c _. apply not_elem_of_nil. }
  split; [done|]. rewrite Heq, dict_keys_fmap_pair.
  split; [apply first_occurrences_NoDup|].
  intros name. rewrite first_occurrences_elem, list_elem_of_fmap. naive_solver.
Qed.

(** * Further concrete runs *)

Section FurtherRuns.
#[local] Existing Instance Demo.paths.
#[local] Existing Instance Demo.generate.

(** A second scene that repeats the characters of the first. *)
Lemma collect_referenced_characters_absorb_witness :
  _collect_referenced_characters ([Demo.scene 1 8 ["A"; "B"]] ++ [Demo.scene 2 8 ["B"; "A"]])
  = _collect_referenced_characters [Demo.scene 1 8 ["A"; "B"]].
Proof.
  apply (collect_referenced_characters_absorb
           [Demo.scene 1 8 ["A"; "B"]] [Demo.scene 2 8 ["B"; "A"]]).
  intros scene c ->%list_elem_of_singleton Hc.
  exists (Demo.scene 1 8 ["A"; "B"]). split; [left|].
  simpl in *. apply elem_of_cons in Hc as [->|Hc]; [right; left|].
  apply list_elem_of_singleton in Hc as ->. left.
Defined.

(** Two worlds that differ in the secret file and in an unrelated file. *)
Lemma build_character_ref_map_probes_only_refs_witness :
  _build_character_ref_map (Demo.world NoFile ["output/refs/A.png"])
    [Demo.scene 1 8 ["A"]] None true
  = _build_character_ref_map
      (Demo.world (Demo.secret_with "k") ["output/scenes/action.mp4"; "output/refs/A.png"])
      [Demo.scene 1 8 ["A"]] None true.
Proof.
  apply (proj1 (build_character_ref_map_probes_only_refs
                  (Demo.world NoFile ["output/refs/A.png"])
                  (Demo.world (Demo.secret_with "k")
                     ["output/scenes/action.mp4"; "output/refs/A.png"])
                  [Demo.scene 1 8 ["A"]] None true)).
  apply Forall_forall. apply (bool_decide_unpack _). vm_compute. exact I.
Defined.

(** A provided map that covers the one referenced character. *)
Lemma build_character_ref_map_postcondition_witness :
  "A" ∈ dict_keys [("A", "a.png"); ("X", "x.png")].
Proof.
  apply (build_character_ref_map_postcondition (Demo.world NoFile [])
           [Demo.scene 1 8 ["A"]] (Some [("A", "a.png"); ("X", "x.png")]) true "A").
  apply (bool_decide_unpack _). vm_compute. exact I.
Defined.

(** The key of the secret file. *)
Lemma resolve_api_key_nonempty_witness :
  truthy (JStr "k1") = true ∧ JStr "k1" ≠ JNull ∧ JStr "k1" ≠ JStr EmptyString.
Proof.
  apply (proj1 (resolve_api_key_nonempty (Demo.world (Demo.secret_with "k1") [])
                  None "image_api_key") (JStr "k1")).
  reflexivity.
Defined.

(** The video key of a trailer request that gives an image key only. *)
Lemma delegates_receive_nonempty_keys_witness : truthy (JStr "k") = true.
Proof.
  apply (proj2 (proj2 (delegates_receive_nonempty_keys (Demo.world NoFile [])))
           (DemoRequests.trailer true)
           (CallGenerateSceneVideos (JStr "k") (JStr "k") [Demo.scene 1 8 ["A"]]
              [("A", "output/refs/A.png")])
           (JStr "k")).
  - right. left.
  - right. left.
Defined.

(** No key in the request and no secret file. *)
Lemma unresolved_key_no_delegate_call_witness :
  create_scene_videos (Demo.world NoFile []) (DemoRequests.scene_videos None)
  = ([], Raise (HTTPException 400
                  "image_api_key is required. Provide it in the request body or secret.json.")).
Proof.
  apply (proj1 (proj2 (unresolved_key_no_delegate_call (Demo.world NoFile [])
                         (HTTPException 400
                            "image_api_key is required. Provide it in the request body or secret.json.")))
           (DemoRequests.scene_videos None)).
  reflexivity.
Defined.


(** The stitching call of a complete trailer run. *)
Lemma generate_trailer_call_chain_witness :
  TrailerGenerationRequest.stitch_trailer (DemoRequests.trailer true) = true
  ∧ ∃ image_api_key veo_api_key character_refs,
      generate_character_references image_api_key
        (TrailerGenerationRequest.character_designs (DemoRequests.trailer true))
      = Return character_refs
      ∧ generate_scene_videos image_api_key veo_api_key
          (TrailerGenerationRequest.scenes (DemoRequests.trailer true)) character_refs
        = Return (["output/scenes/action.mp4"] : list (@Path Demo.paths)).
Proof.
  apply (generate_trailer_call_chain (Demo.world NoFile []) (DemoRequests.trailer true)
           (CallStitchVideos (["output/scenes/action.mp4"] : list (@Path Demo.paths)))).
  right. right. left.
Defined.

(** A trailer run without stitching. *)
Lemma generate_trailer_stitching_witness :
  (∀ video_paths,
     CallStitchVideos video_paths
     ∉ (generate_trailer (Demo.world NoFile []) (DemoRequests.trailer false)).1)
  ∧ (∀ response,
       (generate_trailer (Demo.world NoFile []) (DemoRequests.trailer false)).2
       = Return response →
       TrailerGenerationResponse.trailer_path response = None).
Proof.
  apply (proj1 (generate_trailer_stitching (Demo.world NoFile [])
                  (DemoRequests.trailer false))).
  reflexivity.
Defined.

(** The response of a complete trailer run. *)
Lemma generate_trailer_success_witness :
  ∃ image_api_key veo_api_key scene_paths,
    generate_character_references image_api_key [Demo.design "A"]
    = Return [("A", "output/refs/A.png")]
    ∧ generate_scene_videos image_api_key veo_api_key [Demo.scene 1 8 ["A"]]
        [("A", "output/refs/A.png")]
      = Return scene_paths
    ∧ ["output/scenes/action.mp4"] = path_str <$> scene_paths
    ∧ length ["output/scenes/action.mp4"] = length scene_paths.
Proof.
  apply (generate_trailer_success (Demo.world NoFile []) (DemoRequests.trailer true)
           {| TrailerGenerationResponse.character_refs := [("A", "output/refs/A.png")];
              TrailerGenerationResponse.scene_videos := ["output/scenes/action.mp4"];
              TrailerGenerationResponse.trailer_path := Some "output/trailer_no_audio.mp4" |}).
  reflexivity.
Defined.

(** A scene-videos run with a provided map. *)
Lemma create_scene_videos_single_call_witness :
  ∃ image_api_key veo_api_key character_refs videos,
    _build_character_ref_map (Demo.world NoFile [])
      [Demo.scene 1 8 ["A"]] (Some [("A", "a.png")]) true = Return character_refs
    ∧ (create_scene_videos (Demo.world NoFile []) (DemoRequests.scene_videos (Some "k"))).1
      = [CallGenerateSceneVideos image_api_key veo_api_key [Demo.scene 1 8 ["A"]]
           character_refs]
    ∧ generate_scene_videos image_api_key veo_api_key [Demo.scene 1 8 ["A"]] character_refs
      = Return videos
    ∧ ["output/scenes/action.mp4"] = path_str <$> videos.
Proof.
  apply (proj2 (create_scene_videos_single_call (Demo.world NoFile [])
                  (DemoRequests.scene_videos (Some "k")))
           {| SceneVideoResponse.video_paths := ["output/scenes/action.mp4"] |}).
  reflexivity.
Defined.

(** A character-references run with two designs. *)
Lemma create_character_references_single_call_witness :
  ∃ image_api_key,
    (create_character_references (Demo.world NoFile []) DemoRequests.character_references).1
    = [CallGenerateCharacterReferences image_api_key [Demo.design "A"; Demo.design "B"]]
    ∧ generate_character_references image_api_key [Demo.design "A"; Demo.design "B"]
      = Return [("A", "output/refs/A.png"); ("B", "output/refs/B.png")].
Proof.
  apply (proj2 (create_character_references_single_call (Demo.world NoFile [])
                  DemoRequests.character_references)
           {| CharacterReferenceResponse.character_refs :=
                [("A", "output/refs/A.png"); ("B", "output/refs/B.png")] |}).
  reflexivity.
Defined.

(** An empty image key falls back to the secret file like an omitted one. *)
Lemma empty_key_as_absent_witness :
  create_scene_videos (Demo.world (Demo.secret_with "k1") [])
    {| SceneVideoRequest.scenes := [Demo.scene 1 8 ["A"]];
       SceneVideoRequest.image_api_key := Some EmptyString;
       SceneVideoRequest.veo_api_key := None;
       SceneVideoRequest.character_refs := Some [("A", "a.png")];
       SceneVideoRequest.autoload_refs := true |}
  = create_scene_videos (Demo.world (Demo.secret_with "k1") [])
      {| SceneVideoRequest.scenes := [Demo.scene 1 8 ["A"]];
         SceneVideoRequest.image_api_key := None;
         SceneVideoRequest.veo_api_key := None;
         SceneVideoRequest.character_refs := Some [("A", "a.png")];
         SceneVideoRequest.autoload_refs := true |}.
Proof.
  apply (proj1 (proj2 (proj2 (empty_key_as_absent (Demo.world (Demo.secret_with "k1") []))))
           [Demo.scene 1 8 ["A"]] (Some [("A", "a.png")]) true (Some EmptyString) None
           (or_intror eq_refl) (or_introl eq_refl)).
Defined.

(** The same trailer request with a good and with an unparseable secret
    file. *)
Lemma image_key_given_secret_unread_witness :
  generate_trailer (Demo.world (Demo.secret_with "k1") []) (DemoRequests.trailer true)
  = generate_trailer (Demo.world (Unparseable "Expecting value") ["output/refs/A.png"])
      (DemoRequests.trailer true).
Proof.
  apply (proj1 (proj2 (image_key_given_secret_unread
                         (Demo.world (Demo.secret_with "k1") [])
                         (Demo.world (Unparseable "Expecting value") ["output/refs/A.png"])))
           (DemoRequests.trailer true) "k").
  - reflexivity.
  - discriminate.
Defined.

Example build_probe_error_example :
  _build_character_ref_map DemoRequests.refusing_world [Demo.scene 1 8 ["A"]] None true
  = Raise (Uncaught (LibraryError "OSError" "[Errno 36] File name too long")).
Proof. reflexivity. Qed.

Example scene_videos_unreadable_secret_example :
  create_scene_videos DemoRequests.refusing_world (DemoRequests.scene_videos None)
  = ([], Raise (Uncaught (LibraryError "UnicodeDecodeError" "invalid start byte"))).
Proof. reflexivity. Qed.
End FurtherRuns.
